(** * RFC 7807 problem details for Go: a shallow embedding of package [problem]

    The development follows problem.go and the validation extension.

    - Go's [int] is embedded as [Z]: no function of the package does
      arithmetic on a status, so a statement over [Z] covers the machine
      range. Go strings are [string]s (byte sequences).
    - The map literal [typeForStatus] is a [gmap].
    - [*ProblemDetails] and [*ValidationProblem] are locations of a typed
      heap; the methods with pointer receivers are heap computations in the
      monad [M], where [None] is a panic (in [fmt], whose functions never
      panic, it marks a call outside the embedded fragment).
    - The interfaces [HTTPError], [error] and the unwrapping interface are
      type classes; an [error] interface value is an [option error_val].
    - The response sink is the log of the calls made on it, with the error
      its [Write] answers with; [Result] reads the response off a log by
      the rules of net/http.
    - A JSON document is a tree; a string in it is the text of the Go
      string, every byte that is not UTF-8 replaced by U+FFFD, as
      encoding/json writes and reads it.
    - The collaborators of the standard library (strconv, strings,
      net/http, errors, fmt, encoding/json) are embedded in modules of their
      own names, each as far as the package and its tests use it. *)

From Stdlib Require Import ZArith Ascii String List.
From stdpp Require Import base option numbers list strings gmap pretty.

Local Open Scope Z_scope.
Local Open Scope string_scope.

(** ** Collaborators from the Go standard library *)

(** strings.Title on ASCII text (every catalog title is ASCII, see
    [catalog_titles_ascii]): a letter is upper-cased when the previous
    character is a separator, where letters, digits and the underscore are
    the only characters that do not separate; the scan starts as if a space
    came before. *)
Module strings.
Definition is_lower (c : ascii) : bool :=
    let n := nat_of_ascii c in (97 <=? n)%nat && (n <=? 122)%nat.
Definition is_upper (c : ascii) : bool :=
    let n := nat_of_ascii c in (65 <=? n)%nat && (n <=? 90)%nat.
Definition is_digit (c : ascii) : bool :=
    let n := nat_of_ascii c in (48 <=? n)%nat && (n <=? 57)%nat.

Definition isSeparator (c : ascii) : bool :=
    negb (is_lower c || is_upper c || is_digit c || Ascii.eqb c "_").

Definition ToTitle (c : ascii) : ascii :=
    if is_lower c then ascii_of_nat (nat_of_ascii c - 32) else c.

Definition ToLower (c : ascii) : ascii :=
  if is_upper c then ascii_of_nat (nat_of_ascii c + 32) else c.

Fixpoint Title_from (prev : ascii) (s : string) : string :=
    match s with
    | EmptyString => EmptyString
    | String r s' =>
        String (if isSeparator prev then ToTitle r else r) (Title_from r s')
    end.

Definition Title (s : string) : string := Title_from " " s.

Fixpoint is_ascii (s : string) : bool :=
    match s with
    | EmptyString => true
    | String c s' => (nat_of_ascii c <? 128)%nat && is_ascii s'
    end.
End strings.

(** net/http status constants used by the package. *)
Module http.
Definition StatusBadRequest : Z := 400.
Definition StatusUnauthorized : Z := 401.
Definition StatusPaymentRequired : Z := 402.
Definition StatusForbidden : Z := 403.
Definition StatusNotFound : Z := 404.
Definition StatusMethodNotAllowed : Z := 405.
Definition StatusNotAcceptable : Z := 406.
Definition StatusProxyAuthRequired : Z := 407.
Definition StatusRequestTimeout : Z := 408.
Definition StatusConflict : Z := 409.
Definition StatusGone : Z := 410.
Definition StatusLengthRequired : Z := 411.
Definition StatusPreconditionFailed : Z := 412.
Definition StatusRequestEntityTooLarge : Z := 413.
Definition StatusRequestURITooLong : Z := 414.
Definition StatusUnsupportedMediaType : Z := 415.
Definition StatusRequestedRangeNotSatisfiable : Z := 416.
Definition StatusExpectationFailed : Z := 417.
Definition StatusTeapot : Z := 418.
Definition StatusMisdirectedRequest : Z := 421.
Definition StatusUnprocessableEntity : Z := 422.
Definition StatusLocked : Z := 423.
Definition StatusFailedDependency : Z := 424.
Definition StatusTooEarly : Z := 425.
Definition StatusUpgradeRequired : Z := 426.
Definition StatusPreconditionRequired : Z := 428.
Definition StatusTooManyRequests : Z := 429.
Definition StatusRequestHeaderFieldsTooLarge : Z := 431.
Definition StatusUnavailableForLegalReasons : Z := 451.
Definition StatusInternalServerError : Z := 500.
Definition StatusNotImplemented : Z := 501.
Definition StatusBadGateway : Z := 502.
Definition StatusServiceUnavailable : Z := 503.
Definition StatusGatewayTimeout : Z := 504.
Definition StatusHTTPVersionNotSupported : Z := 505.
Definition StatusVariantAlsoNegotiates : Z := 506.
Definition StatusInsufficientStorage : Z := 507.
Definition StatusLoopDetected : Z := 508.
Definition StatusNotExtended : Z := 510.
Definition StatusNetworkAuthenticationRequired : Z := 511.

(** http.CanonicalHeaderKey: a key made of header-field bytes only gets the
    first letter and every letter after a hyphen in upper case and the other
    letters in lower case; any other key is returned unchanged. *)
Definition validHeaderFieldByte (c : ascii) : bool :=
  strings.is_lower c || strings.is_upper c || strings.is_digit c
  || existsb (Ascii.eqb c) (list_ascii_of_string "!#$%&'*+-.^_`|~").

Fixpoint canonical (upper : bool) (s : string) : string :=
  match s with
  | EmptyString => EmptyString
  | String c s' =>
      let c' := if upper && strings.is_lower c then strings.ToTitle c
                else if negb upper && strings.is_upper c then strings.ToLower c
                else c in
      String c' (canonical (Ascii.eqb c' "-") s')
  end.

Definition CanonicalHeaderKey (s : string) : string :=
  if forallb validHeaderFieldByte (list_ascii_of_string s)
  then canonical true s else s.
End http.

(** strconv.Itoa: the decimal text of an integer, with a leading minus sign
    for negative numbers. *)
Module strconv.
Definition Itoa (i : Z) : string := pretty i.
End strconv.

(** unicode/utf8: the byte classes of the decoder. A sequence is well formed
    when its first byte and the bytes that follow are in the ranges below;
    a byte that starts no well-formed sequence decodes to RuneError with
    width 1. *)
Module utf8.

Definition between (lo hi : N) (c : ascii) : bool :=
  (lo <=? N_of_ascii c)%N && (N_of_ascii c <=? hi)%N.

(** A byte below RuneSelf is a character of its own. *)
Definition single (c : ascii) : bool := (N_of_ascii c <? 128)%N.

(** A continuation byte. *)
Definition cont (c : ascii) : bool := between 128 191 c.

(** The first byte of a sequence of two bytes. *)
Definition lead2 (c0 : ascii) : bool := between 194 223 c0.

(** The first two bytes of a sequence of three bytes. *)
Definition lead3 (c0 c1 : ascii) : bool :=
  (between 224 224 c0 && between 160 191 c1)
  || ((between 225 236 c0 || between 238 239 c0) && cont c1)
  || (between 237 237 c0 && between 128 159 c1).

(** The first two bytes of a sequence of four bytes. *)
Definition lead4 (c0 c1 : ascii) : bool :=
  (between 240 240 c0 && between 144 191 c1)
  || (between 241 243 c0 && cont c1)
  || (between 244 244 c0 && between 128 143 c1).

(** The encoding of U+FFFD, the replacement character. *)
Definition RuneError : string := String "239" (String "191" (String "189" "")).

(** [utf8.ValidString]: the string is a run of well-formed sequences. *)
Fixpoint ValidString (s : string) : bool :=
  match s with
  | EmptyString => true
  | String c0 s1 =>
      if single c0 then ValidString s1
      else
        match s1 with
        | String c1 s2 =>
            if lead2 c0 && cont c1 then ValidString s2
            else
              match s2 with
              | String c2 s3 =>
                  if lead3 c0 c1 && cont c2 then ValidString s3
                  else
                    match s3 with
                    | String c3 s4 =>
                        lead4 c0 c1 && cont c2 && cont c3 && ValidString s4
                    | EmptyString => false
                    end
              | EmptyString => false
              end
        | EmptyString => false
        end
  end.

End utf8.

(** ** The status catalog *)

(** [var typeForStatus = map[int]string{...}]: status code to title. *)
Definition typeForStatus_entries : list (Z * string) :=
  [ (http.StatusBadRequest,                    "Bad Request");
    (http.StatusUnauthorized,                  "Unauthorized");
    (http.StatusPaymentRequired,               "Payment Required");
    (http.StatusForbidden,                     "Forbidden");
    (http.StatusNotFound,                      "Not Found");
    (http.StatusMethodNotAllowed,              "Method Not Allowed");
    (http.StatusNotAcceptable,                 "Not Acceptable");
    (http.StatusProxyAuthRequired,             "Proxy Authentication Required");
    (http.StatusRequestTimeout,                "Request Timeout");
    (http.StatusConflict,                      "Conflict");
    (http.StatusGone,                          "Gone");
    (http.StatusLengthRequired,                "Length Required");
    (http.StatusPreconditionFailed,            "Precondition Failed");
    (http.StatusRequestEntityTooLarge,         "Payload Too Large");
    (http.StatusRequestURITooLong,             "URI Too Long");
    (http.StatusUnsupportedMediaType,          "Unsupported Media Type");
    (http.StatusRequestedRangeNotSatisfiable,  "Range Not Satisfiable");
    (http.StatusExpectationFailed,             "Expectation Failed");
    (http.StatusTeapot,                        "I'm a teapot");
    (http.StatusMisdirectedRequest,            "Misdirected Request");
    (http.StatusUnprocessableEntity,           "Unprocessable Entity");
    (http.StatusLocked,                        "Locked");
    (http.StatusFailedDependency,              "Failed Dependency");
    (http.StatusTooEarly,                      "Too Early");
    (http.StatusUpgradeRequired,               "Upgrade Required");
    (http.StatusPreconditionRequired,          "Precondition Required");
    (http.StatusTooManyRequests,               "Too Many Requests");
    (http.StatusRequestHeaderFieldsTooLarge,   "Request Header Fields Too Large");
    (http.StatusUnavailableForLegalReasons,    "Unavailable For Legal Reasons");
    (499,                                      "Client Closed Request");
    (http.StatusInternalServerError,           "Internal Server Error");
    (http.StatusNotImplemented,                "Not Implemented");
    (http.StatusBadGateway,                    "Bad Gateway");
    (http.StatusServiceUnavailable,            "Service Unavailable");
    (http.StatusGatewayTimeout,                "Gateway Timeout");
    (http.StatusHTTPVersionNotSupported,       "HTTP Version Not Supported");
    (http.StatusVariantAlsoNegotiates,         "Variant Also Negotiates");
    (http.StatusInsufficientStorage,           "Insufficient Storage");
    (http.StatusLoopDetected,                  "Loop Detected");
    (http.StatusNotExtended,                   "Not Extended");
    (http.StatusNetworkAuthenticationRequired, "Network Authentication Required");
    (599,                                      "Network Connect Timeout New") ].

Definition typeForStatus : gmap Z string := list_to_map typeForStatus_entries.

(** Indexing a Go map at a missing key yields the zero value. *)
Definition map_index (m : gmap Z string) (k : Z) : string := default "" (m !! k).

(** ** Errors, problem objects and the heap *)

(** Addresses of heap-allocated problem objects. *)
Definition loc := positive.

(** The dynamic values an [error] interface can hold: the plain error types
    of the standard library ([errors.New] gives an errorString, [fmt.Errorf]
    with one wrap verb a wrapError, whose wrapped error is nil when the
    operand of the verb is not an error, and with several wrap verbs a
    wrapErrors), and pointers to the two problem types of this package,
    which are what its constructors return. The nil interface is [None]. *)
#[local] Set Warnings "-register-all".
Inductive error_val : Type :=
  | errorString (s : string)
  | wrapError (msg : string) (err : option error_val)
  | wrapErrors (msg : string) (errs : list error_val)
  | ptr_ProblemDetails (p : loc)
  | ptr_ValidationProblem (p : loc).

Abbreviation error := (option error_val).

(** [type ProblemDetails struct]. *)
Record ProblemDetails : Type := mkProblemDetails {
  Status : Z;
  Title : string;
  Detail : string;
  Type_ : string;
  Instance_ : string;
  wrappedError : error
}.

(** [type ValidationError struct]. *)
Record ValidationError : Type := mkValidationError {
  FieldName : string;
  Error_ : string
}.

(** [type ValidationProblem struct]: the embedded ProblemDetails and the
    slice of field errors. *)
Record ValidationProblem : Type := mkValidationProblem {
  embedded : ProblemDetails;
  ValidationErrors : list ValidationError
}.

Definition set_Detail (msg : string) (pd : ProblemDetails) : ProblemDetails :=
  mkProblemDetails (Status pd) (Title pd) msg (Type_ pd) (Instance_ pd)
                   (wrappedError pd).

Definition set_wrappedError (err : error) (pd : ProblemDetails) : ProblemDetails :=
  mkProblemDetails (Status pd) (Title pd) (Detail pd) (Type_ pd) (Instance_ pd)
                   err.

Definition set_ValidationErrors (l : list ValidationError)
    (vp : ValidationProblem) : ValidationProblem :=
  mkValidationProblem (embedded vp) l.

(** The heap holds the objects behind [*ProblemDetails] and
    [*ValidationProblem] pointers. *)
Record heap : Type := mkHeap {
  problems : gmap loc ProblemDetails;
  validations : gmap loc ValidationProblem
}.

Definition empty_heap : heap := mkHeap ∅ ∅.

(** Heap computations: [None] is a panic (a nil or dangling dereference,
    a method call on the nil interface). *)
Definition M (A : Type) : Type := heap -> option (A * heap).

Definition ret {A} (x : A) : M A := fun h => Some (x, h).

Definition bind {A B} (m : M A) (k : A -> M B) : M B :=
  fun h => match m h with
           | Some (x, h') => k x h'
           | None => None
           end.

Definition panic {A} : M A := fun _ => None.

Notation "'let*' x ':=' m 'in' k" := (bind m (fun x => k))
  (at level 10, x name, m at level 100, k at level 200).
Notation "m ';;' k" := (bind m (fun _ => k))
  (at level 100, k at level 200, right associativity).

(** [&ProblemDetails{...}]: a fresh object. *)
Definition alloc_ProblemDetails (pd : ProblemDetails) : M loc :=
  fun h => let p := fresh (dom (problems h)) in
           Some (p, mkHeap (<[p := pd]> (problems h)) (validations h)).

Definition alloc_ValidationProblem (vp : ValidationProblem) : M loc :=
  fun h => let p := fresh (dom (validations h)) in
           Some (p, mkHeap (problems h) (<[p := vp]> (validations h))).

(** [*pd] as an r-value. *)
Definition load_ProblemDetails (p : loc) : M ProblemDetails :=
  fun h => match problems h !! p with
           | Some pd => Some (pd, h)
           | None => None
           end.

Definition load_ValidationProblem (p : loc) : M ValidationProblem :=
  fun h => match validations h !! p with
           | Some vp => Some (vp, h)
           | None => None
           end.

(** [pd.field = v]: an update in place of the object behind [p]. *)
Definition modify_ProblemDetails (p : loc)
    (f : ProblemDetails -> ProblemDetails) : M unit :=
  fun h => match problems h !! p with
           | Some pd => Some (tt, mkHeap (<[p := f pd]> (problems h)) (validations h))
           | None => None
           end.

Definition modify_ValidationProblem (p : loc)
    (f : ValidationProblem -> ValidationProblem) : M unit :=
  fun h => match validations h !! p with
           | Some vp => Some (tt, mkHeap (problems h) (<[p := f vp]> (validations h)))
           | None => None
           end.

(** ** Interfaces *)

(** [type HTTPError interface { GetStatus() int }]. *)
Class HTTPError (A : Type) := GetStatus : A -> Z.

(** The built-in [error] interface: [Error() string]. *)
Class GoError (A : Type) := Error : A -> string.

(** The Go 1.13 unwrapping interface: [Unwrap() error]. *)
Class Unwrapper (A : Type) := Unwrap : A -> error.

(** [func (pd ProblemDetails) GetStatus() int]. *)
#[export] Instance ProblemDetails_HTTPError : HTTPError ProblemDetails :=
  fun pd => Status pd.

(** [func (pd ProblemDetails) Error() string]. *)
#[export] Instance ProblemDetails_GoError : GoError ProblemDetails :=
  fun pd => Title pd.

(** [func (pd ProblemDetails) Unwrap() error]. *)
#[export] Instance ProblemDetails_Unwrapper : Unwrapper ProblemDetails :=
  fun pd => wrappedError pd.

(** Methods promoted to ValidationProblem from the embedded struct. *)
#[export] Instance ValidationProblem_HTTPError : HTTPError ValidationProblem :=
  fun vp => GetStatus (embedded vp).

#[export] Instance ValidationProblem_GoError : GoError ValidationProblem :=
  fun vp => Error (embedded vp).

#[export] Instance ValidationProblem_Unwrapper : Unwrapper ValidationProblem :=
  fun vp => Unwrap (embedded vp).

(** ** JSON documents *)

(** encoding/json is a collaborator: the embedding works on the document a
    value is encoded to and decoded from, following the struct tags of the
    package (key names, [omitempty], promotion of the embedded struct's
    fields, declaration order). A string of a document is text: the encoder
    and the decoder both replace every byte of a Go string that is not part
    of a well-formed UTF-8 sequence by U+FFFD ([coerce]); the escapes of the
    rendering as text are undone by the decoder and do not show. *)
Module json.

(** The text of a Go string: well-formed sequences are kept, every other
    byte becomes the replacement character. *)
Fixpoint coerce (s : string) : string :=
  match s with
  | EmptyString => EmptyString
  | String c0 s1 =>
      if utf8.single c0 then String c0 (coerce s1)
      else
        match s1 with
        | String c1 s2 =>
            if utf8.lead2 c0 && utf8.cont c1 then
              String c0 (String c1 (coerce s2))
            else
              match s2 with
              | String c2 s3 =>
                  if utf8.lead3 c0 c1 && utf8.cont c2 then
                    String c0 (String c1 (String c2 (coerce s3)))
                  else
                    match s3 with
                    | String c3 s4 =>
                        if utf8.lead4 c0 c1 && utf8.cont c2 && utf8.cont c3 then
                          String c0 (String c1 (String c2 (String c3 (coerce s4))))
                        else utf8.RuneError +:+ coerce s1
                    | EmptyString => utf8.RuneError +:+ coerce s1
                    end
              | EmptyString => utf8.RuneError +:+ coerce s1
              end
        | EmptyString => utf8.RuneError +:+ coerce s1
        end
  end.

#[local] Set Warnings "-register-all".
Inductive JSON : Type :=
  | JNumber (n : Z)
  | JString (s : string)
  | JArray (elems : list JSON)
  | JObject (members : list (string * JSON)).

Class Marshaler (A : Type) := Marshal : A -> JSON.

(** A field tagged [omitempty] is left out at its zero value. *)
Definition omitempty_int (key : string) (n : Z) : list (string * JSON) :=
  if decide (n = 0) then [] else [(key, JNumber n)].

Definition omitempty_string (key : string) (s : string) : list (string * JSON) :=
  if decide (s = "") then [] else [(key, JString (coerce s))].

Definition omitempty_slice (key : string) (l : list JSON) : list (string * JSON) :=
  match l with
  | [] => []
  | _ :: _ => [(key, JArray l)]
  end.

Definition members_ProblemDetails (pd : ProblemDetails) : list (string * JSON) :=
  omitempty_int "status" (Status pd)
  ++ omitempty_string "title" (Title pd)
  ++ omitempty_string "detail" (Detail pd)
  ++ omitempty_string "type" (Type_ pd)
  ++ omitempty_string "instance" (Instance_ pd).

#[export] Instance Marshal_ProblemDetails : Marshaler ProblemDetails :=
  fun pd => JObject (members_ProblemDetails pd).

#[export] Instance Marshal_ValidationError : Marshaler ValidationError :=
  fun ve => JObject [("name", JString (coerce (FieldName ve)));
                     ("reason", JString (coerce (Error_ ve)))].

#[export] Instance Marshal_ValidationProblem : Marshaler ValidationProblem :=
  fun vp => JObject (members_ProblemDetails (embedded vp)
                     ++ omitempty_slice "invalid-params"
                          (map Marshal (ValidationErrors vp))).

(** Decoding an object into a struct: each member is assigned to the field
    with its key, members with other keys are skipped, fields without a
    member keep the value they had, a member of the wrong JSON type is an
    error ([None]). *)
Definition want_number (v : JSON) : option Z :=
  match v with JNumber n => Some n | _ => None end.

Definition want_string (v : JSON) : option string :=
  match v with JString s => Some (coerce s) | _ => None end.

Definition assign_ProblemDetails (pd : ProblemDetails) (m : string * JSON)
    : option ProblemDetails :=
  let k := m.1 in
  let v := m.2 in
  if decide (k = "status") then
    n ← want_number v;
    Some (mkProblemDetails n (Title pd) (Detail pd) (Type_ pd) (Instance_ pd)
                           (wrappedError pd))
  else if decide (k = "title") then
    t ← want_string v;
    Some (mkProblemDetails (Status pd) t (Detail pd) (Type_ pd) (Instance_ pd)
                           (wrappedError pd))
  else if decide (k = "detail") then
    t ← want_string v; Some (set_Detail t pd)
  else if decide (k = "type") then
    t ← want_string v;
    Some (mkProblemDetails (Status pd) (Title pd) (Detail pd) t (Instance_ pd)
                           (wrappedError pd))
  else if decide (k = "instance") then
    t ← want_string v;
    Some (mkProblemDetails (Status pd) (Title pd) (Detail pd) (Type_ pd) t
                           (wrappedError pd))
  else Some pd.

Definition assign_ValidationError (ve : ValidationError) (m : string * JSON)
    : option ValidationError :=
  let k := m.1 in
  let v := m.2 in
  if decide (k = "name") then
    t ← want_string v; Some (mkValidationError t (Error_ ve))
  else if decide (k = "reason") then
    t ← want_string v; Some (mkValidationError (FieldName ve) t)
  else Some ve.

Fixpoint assign_all {A} (assign : A -> string * JSON -> option A)
    (into : A) (ms : list (string * JSON)) : option A :=
  match ms with
  | [] => Some into
  | m :: ms' => into' ← assign into m; assign_all assign into' ms'
  end.

Definition Unmarshal_ProblemDetails (doc : JSON) (into : ProblemDetails)
    : option ProblemDetails :=
  match doc with
  | JObject ms => assign_all assign_ProblemDetails into ms
  | _ => None
  end.

Definition Unmarshal_ValidationError (doc : JSON) : option ValidationError :=
  match doc with
  | JObject ms => assign_all assign_ValidationError (mkValidationError "" "") ms
  | _ => None
  end.

Definition assign_ValidationProblem (vp : ValidationProblem) (m : string * JSON)
    : option ValidationProblem :=
  if decide (m.1 = "invalid-params") then
    match m.2 with
    | JArray elems =>
        l ← mapM Unmarshal_ValidationError elems;
        Some (set_ValidationErrors l vp)
    | _ => None
    end
  else
    pd ← assign_ProblemDetails (embedded vp) m;
    Some (mkValidationProblem pd (ValidationErrors vp)).

Definition Unmarshal_ValidationProblem (doc : JSON) (into : ValidationProblem)
    : option ValidationProblem :=
  match doc with
  | JObject ms => assign_all assign_ValidationProblem into ms
  | _ => None
  end.

End json.
Export json.

(** The zero values [ProblemDetails{}] and [ValidationProblem{}]. *)
Definition zero_ProblemDetails : ProblemDetails :=
  mkProblemDetails 0 "" "" "" "" None.

Definition zero_ValidationProblem : ValidationProblem :=
  mkValidationProblem zero_ProblemDetails [].

(** ** The response sink *)

(** An [http.ResponseWriter] as seen by the package: the calls it has
    accepted, oldest first, and the error its [Write] answers with ([None]
    for a sink that accepts the write). What a particular sink of net/http
    refuses (a status outside 100..999, a body after a status that allows
    none) is not part of this record; [Result] tells such logs apart. *)
Inductive call : Type :=
  | SetHeader (key value : string)
  | WriteHeader (statusCode : Z)
  | WriteBody (doc : JSON).

Record ResponseWriter : Type := mkResponseWriter {
  calls : list call;
  write_error : error
}.

(** A sink that has accepted nothing yet and accepts every write. *)
Definition working_sink : ResponseWriter := mkResponseWriter [] None.

Definition accept (c : call) (w : ResponseWriter) : ResponseWriter :=
  mkResponseWriter (calls w ++ [c]) (write_error w).

(** [w.Header().Set(key, value)]: the key is stored in canonical form. *)
Definition Header_Set (w : ResponseWriter) (key value : string) : ResponseWriter :=
  accept (SetHeader (http.CanonicalHeaderKey key) value) w.

(** [w.WriteHeader(statusCode)]. *)
Definition do_WriteHeader (w : ResponseWriter) (statusCode : Z) : ResponseWriter :=
  accept (WriteHeader statusCode) w.

(** [json.NewEncoder(w).Encode(obj)]: one [Write] of the encoded document;
    the sink's error, if any, is the result. *)
Definition Encode {A} `{Marshaler A} (w : ResponseWriter) (obj : A)
    : ResponseWriter * error :=
  match write_error w with
  | None => (accept (WriteBody (Marshal obj)) w, None)
  | Some e => (w, Some e)
  end.

(** The response a client reads off the calls a sink has accepted, by the
    rules of net/http: the first status line counts (200 when a body comes
    first or nothing was written), the headers are those set before it, the
    bodies follow in order. *)
Record Response : Type := mkResponse {
  StatusCode : Z;
  Header : gmap string string;
  Body : list JSON
}.

Record recorder : Type := mkRecorder {
  HeaderMap : gmap string string;
  snapHeader : option (gmap string string);
  Code : Z;
  written : list JSON
}.

Definition record_WriteHeader (code : Z) (r : recorder) : recorder :=
  match snapHeader r with
  | Some _ => r
  | None => mkRecorder (HeaderMap r) (Some (HeaderMap r)) code (written r)
  end.

Definition record (r : recorder) (c : call) : recorder :=
  match c with
  | SetHeader k v => mkRecorder (<[k := v]> (HeaderMap r)) (snapHeader r) (Code r) (written r)
  | WriteHeader code => record_WriteHeader code r
  | WriteBody doc =>
      let r' := record_WriteHeader 200 r in
      mkRecorder (HeaderMap r') (snapHeader r') (Code r') (written r' ++ [doc])
  end.

(** A status net/http accepts in WriteHeader (it panics on any other). *)
Definition validStatus (code : Z) : bool :=
  (100 <=? code)%Z && (code <=? 999)%Z.

(** [bodyAllowedForStatus]: a Write after a status 1xx, 204 or 304 is
    answered with ErrBodyNotAllowed. *)
Definition bodyAllowedForStatus (code : Z) : bool :=
  negb ((100 <=? code)%Z && (code <=? 199)%Z)
  && negb (code =? 204)%Z && negb (code =? 304)%Z.

(** No sink of net/http has accepted a log whose status it panics on, or a
    body it answers with an error: such a log has no response. *)
Definition Result (w : ResponseWriter) : option Response :=
  let r := fold_left record (calls w) (mkRecorder ∅ None 200 []) in
  if validStatus (Code r)
     && (bodyAllowedForStatus (Code r)
         || match written r with [] => true | _ :: _ => false end)
  then Some (mkResponse (Code r) (default (HeaderMap r) (snapHeader r)) (written r))
  else None.

(** ** Dynamic values and the error interface *)

(** The values an empty interface can hold in the embedding: nil, an int,
    a string, or an error value. *)
Inductive any : Type :=
  | any_nil
  | any_int (n : Z)
  | any_string (s : string)
  | any_error (e : error_val).

Definition of_error (err : error) : any :=
  match err with
  | None => any_nil
  | Some e => any_error e
  end.

(** [err.Error()] on a non-nil interface value, by dynamic type; the two
    pointer types reach the value-receiver method through the pointer. *)
Definition error_Error (e : error_val) : M string :=
  match e with
  | errorString s => ret s
  | wrapError msg _ => ret msg
  | wrapErrors msg _ => ret msg
  | ptr_ProblemDetails p => let* pd := load_ProblemDetails p in ret (Error pd)
  | ptr_ValidationProblem p => let* vp := load_ValidationProblem p in ret (Error vp)
  end.

(** [err.Error()] on an interface value that may be nil (a panic). *)
Definition call_Error (err : error) : M string :=
  match err with
  | None => panic
  | Some e => error_Error e
  end.

Module errors.

(** [errors.New]. *)
Definition New (text : string) : error_val := errorString text.

(** [errors.Unwrap]: the result of the value's [Unwrap() error] method if
    its type has one, nil otherwise (the [Unwrap] of a wrapErrors returns a
    slice, so it does not count). *)
Definition Unwrap (err : error) : M error :=
  match err with
  | None => ret None
  | Some (errorString _) => ret None
  | Some (wrapError _ e) => ret e
  | Some (wrapErrors _ _) => ret None
  | Some (ptr_ProblemDetails p) =>
      let* pd := load_ProblemDetails p in ret (Unwrap pd)
  | Some (ptr_ValidationProblem p) =>
      let* vp := load_ValidationProblem p in ret (Unwrap vp)
  end.

End errors.

(** ** Formatting *)

(** The fragment of package fmt the development covers, as of Go 1.20:
    format strings whose directives are the bare verbs v, s, d, w, T and the
    doubled percent sign (no flags, width, precision or argument index),
    over operands of type any. fmt never panics; for a call outside the
    fragment (another verb, or the d verb on an error operand, which fmt
    prints by reflection) the embedding has no text to give and answers
    [beyond], which is not a panic of the library but the limit of the
    embedding. *)
Module fmt.

Definition beyond {A} : M A := fun _ => None.

(** fmt calls the Error method of an operand under a recover: when the call
    panics on a nil pointer, the text is <nil>. *)
Definition recover (m : M string) : M string :=
  fun h => match m h with
           | Some r => Some r
           | None => Some ("<nil>", h)
           end.

(** [reflect.TypeOf(x).String()]. *)
Definition typeString (x : any) : string :=
  match x with
  | any_nil => "<nil>"
  | any_int _ => "int"
  | any_string _ => "string"
  | any_error (errorString _) => "*errors.errorString"
  | any_error (wrapError _ _) => "*fmt.wrapError"
  | any_error (wrapErrors _ _) => "*fmt.wrapErrors"
  | any_error (ptr_ProblemDetails _) => "*problem.ProblemDetails"
  | any_error (ptr_ValidationProblem _) => "*problem.ValidationProblem"
  end.

Definition is_verb (c : ascii) : bool :=
  existsb (Ascii.eqb c) (list_ascii_of_string "vsdwT").

Definition verb_in (verbs : string) (c : ascii) : bool :=
  existsb (Ascii.eqb c) (list_ascii_of_string verbs).

(** The text fmt prints for an operand that does not fit the verb. *)
Definition badVerb (verb : ascii) (arg : any) (shown : string) : string :=
  "%!" +:+ String verb ("(" +:+ typeString arg +:+ "=" +:+ shown +:+ ")").

Definition printArg (arg : any) (verb : ascii) : M string :=
  match arg with
  | any_nil =>
      if verb_in "Tv" verb then ret "<nil>"
      else ret ("%!" +:+ String verb "(<nil>)")
  | any_int n =>
      if verb_in "T" verb then ret "int"
      else if verb_in "vd" verb then ret (strconv.Itoa n)
      else ret (badVerb verb arg (strconv.Itoa n))
  | any_string t =>
      if verb_in "T" verb then ret "string"
      else if verb_in "vs" verb then ret t
      else ret (badVerb verb arg t)
  | any_error e =>
      if verb_in "T" verb then ret (typeString arg)
      else if verb_in "vsw" verb then recover (error_Error e)
      else beyond
  end.

Definition extraArg (arg : any) : M string :=
  match arg with
  | any_nil => ret "<nil>"
  | _ => let* t := printArg arg "v" in ret (typeString arg +:+ "=" +:+ t)
  end.

Fixpoint extraArgs (a : list any) : M string :=
  match a with
  | [] => ret ""
  | arg :: a' =>
      let* shown := extraArg arg in
      let* more := extraArgs a' in
      ret (shown +:+ (match a' with [] => "" | _ :: _ => ", " end) +:+ more)
  end.

(** Operands left over when the format is used up. *)
Definition extra (a : list any) (argNum : nat) : M string :=
  match drop argNum a with
  | [] => ret ""
  | rest => let* t := extraArgs rest in ret ("%!(EXTRA " +:+ t +:+ ")")
  end.

(** The formatting proper: the text, and the indexes of the operands that
    a wrap verb was applied to, in the order of the verbs ([wrappedErrs]). *)
Fixpoint doPrintf (format : string) (a : list any) (argNum : nat)
    (wrappedErrs : list nat) {struct format} : M (string * list nat) :=
  match format with
  | EmptyString => let* x := extra a argNum in ret (x, wrappedErrs)
  | String c rest =>
      if Ascii.eqb c "%" then
        match rest with
        | EmptyString =>
            let* x := extra a argNum in ret ("%!(NOVERB)" +:+ x, wrappedErrs)
        | String verb rest' =>
            if Ascii.eqb verb "%" then
              let* r := doPrintf rest' a argNum wrappedErrs in
              ret (String "%" r.1, r.2)
            else if is_verb verb then
              match a !! argNum with
              | None =>
                  let* r := doPrintf rest' a argNum wrappedErrs in
                  ret ("%!" +:+ String verb "(MISSING)" +:+ r.1, r.2)
              | Some arg =>
                  let wrappedErrs' :=
                    if Ascii.eqb verb "w" then (wrappedErrs ++ [argNum])%list
                    else wrappedErrs in
                  let* t := printArg arg verb in
                  let* r := doPrintf rest' a (S argNum) wrappedErrs' in
                  ret (t +:+ r.1, r.2)
              end
            else beyond
        end
      else
        let* r := doPrintf rest a argNum wrappedErrs in
        ret (String c r.1, r.2)
  end.

(** [a[i].(error)]: the operand as an error, nil when it is none. *)
Definition as_error (a : list any) (i : nat) : error :=
  match a !! i with
  | Some (any_error e) => Some e
  | _ => None
  end.

(** [fmt.Errorf]: the formatted text as an error. Without a wrap verb that
    has an operand it is an errorString; with one, a wrapError around that
    operand, or around nil when the operand is not an error; with several,
    a wrapErrors around those operands that are errors. *)
Definition Errorf (format : string) (a : list any) : M error_val :=
  let* r := doPrintf format a 0%nat [] in
  match r.2 with
  | [] => ret (errors.New r.1)
  | [i] => ret (wrapError r.1 (as_error a i))
  | idxs => ret (wrapErrors r.1 (omap (fun i => as_error a i) idxs))
  end.

End fmt.

(** ** Package problem *)

(** [const ContentProblemDetails]. *)
Definition ContentProblemDetails : string := "application/problem+json".

(** The composite literal of [New]. *)
Definition New_literal (status : Z) : ProblemDetails :=
  {| Status := status;
     Title := map_index typeForStatus status;
     Detail := "";
     Type_ := "https://httpstatuses.com/" +:+ strconv.Itoa status;
     Instance_ := "";
     wrappedError := None |}.

(** [func New(status int) *ProblemDetails]. *)
Definition New (status : Z) : M loc :=
  alloc_ProblemDetails (New_literal status).

(** [func rawWrite(w http.ResponseWriter, obj HTTPError) error], on the
    object behind the interface value. *)
Definition rawWrite {A} `{HTTPError A} `{Marshaler A}
    (w : ResponseWriter) (obj : A) : ResponseWriter * error :=
  let w := Header_Set w (http.CanonicalHeaderKey "Content-Type")
                      ContentProblemDetails in
  let w := do_WriteHeader w (GetStatus obj) in
  Encode w obj.

(** Methods with receiver [pd *ProblemDetails]. *)
Module PD.

(** [func (pd *ProblemDetails) Errorf(fmtstr string, args ...interface{})]. *)
Definition Errorf (pd : loc) (fmtstr : string) (args : list any) : M loc :=
  let* err := fmt.Errorf fmtstr args in
  let* cause := errors.Unwrap (Some err) in
  modify_ProblemDetails pd (set_wrappedError cause) ;;
  let* msg := error_Error err in
  modify_ProblemDetails pd (set_Detail msg) ;;
  ret pd.

(** [func (pd *ProblemDetails) WithDetail(msg string) *ProblemDetails]. *)
Definition WithDetail (pd : loc) (msg : string) : M loc :=
  modify_ProblemDetails pd (set_Detail msg) ;;
  ret pd.

(** [func (pd *ProblemDetails) WithErr(err error) *ProblemDetails]. *)
Definition WithErr (pd : loc) (err : error) : M loc :=
  modify_ProblemDetails pd (set_wrappedError err) ;;
  let* o := load_ProblemDetails pd in
  (if decide (Detail o = "") then
     let* msg := call_Error err in
     modify_ProblemDetails pd (set_Detail msg)
   else ret tt) ;;
  ret pd.

(** [func (pd *ProblemDetails) Write(w http.ResponseWriter) error]. *)
Definition Write (pd : loc) (w : ResponseWriter) : M (ResponseWriter * error) :=
  let* o := load_ProblemDetails pd in
  ret (rawWrite w o).

(** [pd.Unwrap()] through the pointer. *)
Definition Unwrap (pd : loc) : M error :=
  let* o := load_ProblemDetails pd in
  ret (Unwrap o).

End PD.

(** The type switch of [Write], on the dynamic value of [err]: the two
    pointer types of the package have [GetStatus] in their method set, every
    error value has [Error], and the default case takes what is left. *)
Definition Write_switch (w : ResponseWriter) (err : any)
    : M (ResponseWriter * error) :=
  match err with
  | any_error (ptr_ProblemDetails p) =>
      let* r := load_ProblemDetails p in ret (rawWrite w r)
  | any_error (ptr_ValidationProblem p) =>
      let* r := load_ValidationProblem p in ret (rawWrite w r)
  | any_error r => ret (w, Some r)
  | _ =>
      let* e := fmt.Errorf "can't write non-error type %T" [err] in
      ret (w, Some e)
  end.

(** [func Write(w http.ResponseWriter, err error) error]. *)
Definition Write (w : ResponseWriter) (err : error) : M (ResponseWriter * error) :=
  match err with
  | None => ret (w, None)
  | Some _ => Write_switch w (of_error err)
  end.

(** [func MustWrite(w http.ResponseWriter, err error) error]. *)
Definition MustWrite (w : ResponseWriter) (err : error)
    : M (ResponseWriter * error) :=
  let* r := Write w err in
  match r.2 with
  | Some _ =>
      let* p := New http.StatusInternalServerError in
      let* p := PD.WithErr p r.2 in
      PD.Write p r.1
  | None => ret (r.1, None)
  end.

(** [func Errorf(status int, fmtstr string, args ...interface{})]. *)
Definition Errorf (status : Z) (fmtstr : string) (args : list any) : M loc :=
  let* p := New status in
  PD.Errorf p fmtstr args.

Module problem.
(** [func Error(w http.ResponseWriter, msg string, status int) error]. *)
Definition Error (w : ResponseWriter) (msg : string) (status : Z)
    : M (ResponseWriter * error) :=
  let* p := New status in
  let* p := PD.WithDetail p msg in
  PD.Write p w.
End problem.

(** ** The validation extension *)

(** [func NewValidationProblem() *ValidationProblem]. *)
Definition NewValidationProblem : M loc :=
  alloc_ValidationProblem
    {| embedded := {| Status := http.StatusBadRequest;
                      Title := "";
                      Detail := "Validation error";
                      Type_ := "";
                      Instance_ := "";
                      wrappedError := None |};
       ValidationErrors := [] |}.

(** Methods with receiver [vp *ValidationProblem]. *)
Module VP.

(** [func (vp *ValidationProblem) Add(field string, errmsg string)]. *)
Definition Add (vp : loc) (field : string) (errmsg : string) : M unit :=
  let ve := mkValidationError field errmsg in
  modify_ValidationProblem vp
    (fun o => set_ValidationErrors (ValidationErrors o ++ [ve]) o).

End VP.

(** ** Vocabulary of the statements *)

(** Running a computation and keeping its result only. *)
Definition eval {A} (m : M A) (h : heap) : option A :=
  match m h with
  | Some (x, _) => Some x
  | None => None
  end.

(** A computation that leaves the heap as it found it. *)
Definition reads_only {A} (m : M A) : Prop :=
  forall h x h', m h = Some (x, h') -> h' = h.

(** A status is covered when the catalog has a title for it. *)
Definition covered (status : Z) : Prop := is_Some (typeForStatus !! status).

(** Boolean checks over the catalog entries, decided by evaluation. *)
Definition distinct_titles (es : list (Z * string)) : bool :=
  forallb (fun e1 =>
    forallb (fun e2 => bool_decide (e1.1 = e2.1) || negb (String.eqb e1.2 e2.2)) es) es.

Definition title_cased (es : list (Z * string)) : bool :=
  forallb (fun e => bool_decide (e.1 = 418) || String.eqb (strings.Title e.2) e.2) es.

Definition nonempty_ascii_titles (es : list (Z * string)) : bool :=
  forallb (fun e => negb (String.eqb e.2 "") && strings.is_ascii e.2) es.

(** The method set of an error value has [GetStatus]. *)
Definition implements_HTTPError (e : error_val) : bool :=
  match e with
  | ptr_ProblemDetails _ | ptr_ValidationProblem _ => true
  | errorString _ | wrapError _ _ | wrapErrors _ _ => false
  end.

(** A dynamic value is an error value. *)
Definition implements_error (v : any) : bool :=
  match v with
  | any_error _ => true
  | any_nil | any_int _ | any_string _ => false
  end.


(** The calls that make one problem response. *)
Definition one_response (status : Z) (doc : JSON) : list call :=
  [SetHeader "Content-Type" ContentProblemDetails;
   WriteHeader status;
   WriteBody doc].

(** The member of an object with a given key. *)
Definition member (key : string) (doc : JSON) : option JSON :=
  match doc with
  | JObject ms => snd <$> find (fun m => String.eqb m.1 key) ms
  | _ => None
  end.

(** The verbs of a format that take an operand, in the order they appear:
    the i-th of them refers to the i-th operand. *)
Fixpoint verbs (format : string) : list ascii :=
  match format with
  | EmptyString => []
  | String c rest =>
      if Ascii.eqb c "%" then
        match rest with
        | EmptyString => []
        | String verb rest' =>
            if Ascii.eqb verb "%" then verbs rest' else verb :: verbs rest'
        end
      else verbs rest
  end.

(** Text without a percent sign. *)
Fixpoint no_percent (s : string) : bool :=
  match s with
  | EmptyString => true
  | String c s' => negb (Ascii.eqb c "%") && no_percent s'
  end.

(** The operands the wrap verbs of a format are applied to: the indexes,
    in order, of the operands that exist and whose verb is w. A verb that
    finds no operand left takes none, and neither do the verbs after it. *)
Fixpoint wrap_list (vs : list ascii) (a : list any) (n : nat) : list nat :=
  match vs with
  | [] => []
  | v :: vs' =>
      match a !! n with
      | None => []
      | Some _ =>
          ((if Ascii.eqb v "w" then [n] else []) ++ wrap_list vs' a (S n))%list
      end
  end.

(** What errors.Unwrap gives for the error fmt.Errorf builds: the operand
    of the wrap verb when exactly one wrap verb has an operand and that
    operand is an error, nil in every other case. *)
Definition wrapped_by (fmtstr : string) (args : list any) : error :=
  match wrap_list (verbs fmtstr) args 0 with
  | [i] => fmt.as_error args i
  | _ => None
  end.

(** A call inside the fragment of fmt: every verb is one of v, s, d, w, T
    and no d verb is applied to an error operand. *)
Fixpoint supported_from (vs : list ascii) (a : list any) (n : nat) : bool :=
  match vs with
  | [] => true
  | v :: vs' =>
      fmt.is_verb v
      && match a !! n with
         | Some (any_error _) => negb (Ascii.eqb v "d")
         | _ => true
         end
      && supported_from vs' a (S n)
  end.

Definition supported (fmtstr : string) (args : list any) : bool :=
  supported_from (verbs fmtstr) args 0.


(** Build a problem from a status and a detail string and hand it to Write
    on a working sink. *)
Definition write_problem (status : Z) (detail : string)
    : M (ResponseWriter * error) :=
  let* p := New status in
  let* p := PD.WithDetail p detail in
  Write working_sink (Some (ptr_ProblemDetails p)).

(** Read the response back and decode its one body into a zero
    ProblemDetails. *)
Definition decode_response (w : ResponseWriter)
    : option (Response * ProblemDetails) :=
  resp ← Result w;
  match Body resp with
  | [doc] =>
      pd ← Unmarshal_ProblemDetails doc zero_ProblemDetails; Some (resp, pd)
  | _ => None
  end.

(** The round-trip property as the specification words it. *)
Definition round_trips (h : heap) (status : Z) (detail : string) : Prop :=
  exists w resp pd,
    eval (write_problem status detail) h = Some (w, None)
    /\ decode_response w = Some (resp, pd)
    /\ Header resp !! "Content-Type" = Some ContentProblemDetails
    /\ StatusCode resp = status
    /\ Status pd = status
    /\ Title pd <> ""
    /\ Type_ pd <> ""
    /\ Detail pd = detail.


(** The scenario of the validation test: a new validation problem, two
    field errors added, handed to MustWrite on a working sink. *)
Definition add_two_and_write (f1 r1 f2 r2 : string) : M (ResponseWriter * error) :=
  let* v := NewValidationProblem in
  VP.Add v f1 r1 ;;
  VP.Add v f2 r2 ;;
  MustWrite working_sink (Some (ptr_ValidationProblem v)).

(** The field error the codec gives back for one that was written. *)
Definition coerce_ValidationError (ve : ValidationError) : ValidationError :=
  mkValidationError (json.coerce (FieldName ve)) (json.coerce (Error_ ve)).

(** A call of one of the three fluent mutators, and a chain of such calls,
    each made on the pointer the previous one returned. *)
Inductive mutator : Type :=
  | call_Errorf (fmtstr : string) (args : list any)
  | call_WithDetail (msg : string)
  | call_WithErr (err : error).

Definition run_mutator (p : loc) (m : mutator) : M loc :=
  match m with
  | call_Errorf fmtstr args => PD.Errorf p fmtstr args
  | call_WithDetail msg => PD.WithDetail p msg
  | call_WithErr err => PD.WithErr p err
  end.

Fixpoint chain (p : loc) (ms : list mutator) : M loc :=
  match ms with
  | [] => ret p
  | m :: ms' => let* q := run_mutator p m in chain q ms'
  end.

(** One call of Add for each field error of a list, in order. *)
Fixpoint add_all (vp : loc) (l : list ValidationError) : M unit :=
  match l with
  | [] => ret tt
  | ve :: l' => VP.Add vp (FieldName ve) (Error_ ve) ;; add_all vp l'
  end.

(** A new validation problem, the field errors of a list added, handed to
    MustWrite on a working sink. *)
Definition add_all_and_write (l : list ValidationError)
    : M (ResponseWriter * error) :=
  let* v := NewValidationProblem in
  add_all v l ;;
  MustWrite working_sink (Some (ptr_ValidationProblem v)).

(** Decoding into a struct that already has values: a field the document
    has a member for takes the member, which is the text of the field that
    was encoded, the others keep what they had. *)
Definition merge_ProblemDetails (into pd : ProblemDetails) : ProblemDetails :=
  mkProblemDetails
    (if decide (Status pd = 0) then Status into else Status pd)
    (if decide (Title pd = "") then Title into else json.coerce (Title pd))
    (if decide (Detail pd = "") then Detail into else json.coerce (Detail pd))
    (if decide (Type_ pd = "") then Type_ into else json.coerce (Type_ pd))
    (if decide (Instance_ pd = "") then Instance_ into
     else json.coerce (Instance_ pd))
    (wrappedError into).

(** The problem the codec gives back for one that was written: the text of
    its string fields, and no wrapped error. *)
Definition coerce_ProblemDetails (pd : ProblemDetails) : ProblemDetails :=
  mkProblemDetails (Status pd) (json.coerce (Title pd)) (json.coerce (Detail pd))
    (json.coerce (Type_ pd)) (json.coerce (Instance_ pd)) None.


(** * Properties *)

(** ** Sanity checks of the collaborators *)

Example Itoa_examples :
  strconv.Itoa 404 = "404" /\ strconv.Itoa 0 = "0" /\ strconv.Itoa (-15) = "-15".
Proof. vm_compute. auto. Qed.

Example Title_examples :
  strings.Title "I'm a teapot" = "I'M A Teapot"
  /\ strings.Title "URI Too Long" = "URI Too Long"
  /\ strings.Title "not found" = "Not Found".
Proof. vm_compute. auto. Qed.

Example CanonicalHeaderKey_examples :
  http.CanonicalHeaderKey "Content-Type" = "Content-Type"
  /\ http.CanonicalHeaderKey "content-type" = "Content-Type"
  /\ http.CanonicalHeaderKey "content type" = "content type".
Proof. vm_compute. auto. Qed.

Example Errorf_examples :
  eval (fmt.Errorf "can't parse ID: %w" [any_error (errors.New "bad")]) empty_heap
    = Some (wrapError "can't parse ID: bad" (Some (errorString "bad")))
  /\ eval (fmt.Errorf "%w and %w" [any_error (errors.New "a");
                                    any_error (errors.New "b")]) empty_heap
    = Some (wrapErrors "a and b" [errorString "a"; errorString "b"])
  /\ eval (fmt.Errorf "%w" [any_int 5]) empty_heap
    = Some (wrapError "%!w(int=5)" None)
  /\ eval (fmt.Errorf "%v" [any_error (ptr_ProblemDetails 1%positive)]) empty_heap
    = Some (errorString "<nil>")
  /\ eval (fmt.Errorf "%d of %s%%" [any_int 5; any_string "x"]) empty_heap
    = Some (errorString "5 of x%")
  /\ eval (fmt.Errorf "%s %d %v" [any_int 5; any_string "x"]) empty_heap
    = Some (errorString "%!s(int=5) %!d(string=x) %!v(MISSING)")
  /\ eval (fmt.Errorf "100%" [any_nil; any_int 1]) empty_heap
    = Some (errorString "100%!(NOVERB)%!(EXTRA <nil>, int=1)").
Proof. vm_compute. repeat split. Qed.

(** ** The catalog *)

Lemma typeForStatus_keys_NoDup : NoDup (typeForStatus_entries.*1).
Proof.
  apply (bool_decide_unpack (NoDup (typeForStatus_entries.*1))).
  vm_compute. exact I.
Qed.

Lemma typeForStatus_lookup (s : Z) (t : string) :
  typeForStatus !! s = Some t <-> (s, t) ∈ typeForStatus_entries.
Proof.
  unfold typeForStatus. symmetry.
  apply elem_of_list_to_map, typeForStatus_keys_NoDup.
Qed.

Lemma forallb_elem_of {A} (f : A -> bool) (l : list A) (x : A) :
  forallb f l = true -> x ∈ l -> f x = true.
Proof.
  intros Hall Hin. rewrite forallb_forall in Hall.
  apply Hall. by apply list_elem_of_In.
Qed.

Lemma catalog_titles_distinct (s1 s2 : Z) (t1 t2 : string) :
  typeForStatus !! s1 = Some t1 -> typeForStatus !! s2 = Some t2 ->
  s1 <> s2 -> t1 <> t2.
Proof.
  rewrite !typeForStatus_lookup. intros H1 H2 Hne Heq.
  assert (Hd : distinct_titles typeForStatus_entries = true)
    by (vm_compute; reflexivity).
  pose proof (forallb_elem_of _ _ _ (forallb_elem_of _ _ _ Hd H1) H2) as Hc.
  simpl in Hc. apply orb_true_iff in Hc as [Hc | Hc].
  - apply bool_decide_eq_true in Hc. contradiction.
  - apply negb_true_iff, String.eqb_neq in Hc. contradiction.
Qed.

Lemma catalog_titles_title_case (s : Z) (t : string) :
  typeForStatus !! s = Some t -> s <> 418 -> strings.Title t = t.
Proof.
  rewrite typeForStatus_lookup. intros Hin Hne.
  assert (Hd : title_cased typeForStatus_entries = true)
    by (vm_compute; reflexivity).
  pose proof (forallb_elem_of _ _ _ Hd Hin) as Hc.
  simpl in Hc. apply orb_true_iff in Hc as [Hc | Hc].
  - apply bool_decide_eq_true in Hc. contradiction.
  - by apply String.eqb_eq in Hc.
Qed.

Lemma catalog_titles_ascii (s : Z) (t : string) :
  typeForStatus !! s = Some t -> t <> "" /\ strings.is_ascii t = true.
Proof.
  rewrite typeForStatus_lookup. intros Hin.
  assert (Hd : nonempty_ascii_titles typeForStatus_entries = true)
    by (vm_compute; reflexivity).
  pose proof (forallb_elem_of _ _ _ Hd Hin) as Hc.
  simpl in Hc. apply andb_true_iff in Hc as [Hc1 Hc2].
  split; [|done]. by apply negb_true_iff, String.eqb_neq in Hc1.
Qed.

Lemma Itoa_inj (i j : Z) : strconv.Itoa i = strconv.Itoa j -> i = j.
Proof. unfold strconv.Itoa. apply pretty_Z_inj. Qed.

Lemma New_literal_Type_inj (s1 s2 : Z) :
  Type_ (New_literal s1) = Type_ (New_literal s2) -> s1 = s2.
Proof.
  simpl. intros Heq. apply Itoa_inj.
  repeat (injection Heq as Heq). exact Heq.
Qed.

Lemma catalog_keys_in_range :
  Forall (fun e : Z * string => 400 <= e.1 <= 599) typeForStatus_entries.
Proof.
  apply (bool_decide_unpack
           (Forall (fun e : Z * string => 400 <= e.1 <= 599) typeForStatus_entries)).
  vm_compute. exact I.
Qed.

Lemma covered_in_range (status : Z) : covered status -> 400 <= status <= 599.
Proof.
  intros [t Ht]. apply typeForStatus_lookup in Ht.
  pose proof catalog_keys_in_range as Hall.
  rewrite Forall_forall in Hall. apply (Hall _ Ht).
Qed.

(** ** The heap *)

Lemma alloc_ProblemDetails_spec (pd : ProblemDetails) (h : heap) :
  exists p,
    alloc_ProblemDetails pd h
      = Some (p, mkHeap (<[p := pd]> (problems h)) (validations h))
    /\ problems h !! p = None.
Proof.
  exists (fresh (dom (problems h))). split; [reflexivity|].
  apply not_elem_of_dom, is_fresh.
Qed.

Lemma alloc_ValidationProblem_spec (vp : ValidationProblem) (h : heap) :
  exists p,
    alloc_ValidationProblem vp h
      = Some (p, mkHeap (problems h) (<[p := vp]> (validations h)))
    /\ validations h !! p = None.
Proof.
  exists (fresh (dom (validations h))). split; [reflexivity|].
  apply not_elem_of_dom, is_fresh.
Qed.

Lemma load_ProblemDetails_Some (p : loc) (pd : ProblemDetails) (h : heap) :
  problems h !! p = Some pd -> load_ProblemDetails p h = Some (pd, h).
Proof. intros Hp. unfold load_ProblemDetails. by rewrite Hp. Qed.

Lemma load_ValidationProblem_Some (p : loc) (vp : ValidationProblem) (h : heap) :
  validations h !! p = Some vp -> load_ValidationProblem p h = Some (vp, h).
Proof. intros Hp. unfold load_ValidationProblem. by rewrite Hp. Qed.

Lemma modify_ProblemDetails_Some (p : loc) f (pd : ProblemDetails) (h : heap) :
  problems h !! p = Some pd ->
  modify_ProblemDetails p f h
    = Some (tt, mkHeap (<[p := f pd]> (problems h)) (validations h)).
Proof. intros Hp. unfold modify_ProblemDetails. by rewrite Hp. Qed.

Lemma modify_ValidationProblem_Some (p : loc) f (vp : ValidationProblem) (h : heap) :
  validations h !! p = Some vp ->
  modify_ValidationProblem p f h
    = Some (tt, mkHeap (problems h) (<[p := f vp]> (validations h))).
Proof. intros Hp. unfold modify_ValidationProblem. by rewrite Hp. Qed.

(** ** Construction *)

(** C4: for every integer status, New(status) returns (it never fails, also
    for codes the catalog does not know) a pointer to a fresh ProblemDetails
    whose status is [status], whose title is the catalog's title for
    [status], the empty string when the catalog has none, and whose type is
    the text https://httpstatuses.com/ followed by the decimal status. *)
Theorem New_constructs (status : Z) (h : heap) :
  exists p h' pd,
    New status h = Some (p, h')
    /\ problems h !! p = None
    /\ problems h' = <[p := pd]> (problems h)
    /\ validations h' = validations h
    /\ Status pd = status
    /\ Title pd = default "" (typeForStatus !! status)
    /\ (covered status \/ Title pd = "")
    /\ Type_ pd = "https://httpstatuses.com/" +:+ strconv.Itoa status
    /\ Detail pd = "" /\ Instance_ pd = "" /\ wrappedError pd = None.
Proof.
  destruct (alloc_ProblemDetails_spec (New_literal status) h) as (p & Halloc & Hfresh).
  exists p, (mkHeap (<[p := New_literal status]> (problems h)) (validations h)),
    (New_literal status).
  repeat split; try done.
  simpl. unfold map_index, covered.
  destruct (typeForStatus !! status) as [t|] eqn:Ht; [left; by exists t | by right].
Qed.

Example New_404 :
  exists p h', New 404 empty_heap = Some (p, h')
    /\ problems h' !! p
       = Some (mkProblemDetails 404 "Not Found" "" "https://httpstatuses.com/404" "" None).
Proof. eexists _, _. split; [reflexivity|]. vm_compute. reflexivity. Qed.

Example New_unknown :
  exists p h', New 299 empty_heap = Some (p, h')
    /\ problems h' !! p
       = Some (mkProblemDetails 299 "" "" "https://httpstatuses.com/299" "" None).
Proof. eexists _, _. split; [reflexivity|]. vm_compute. reflexivity. Qed.

(** C5: over the statuses the catalog covers, two distinct codes never have
    the same title nor the same type identifier, and every title is in title
    case (it is left unchanged by strings.Title) except that of 418, which
    is the text I'm a teapot and is not in title case. *)
Theorem catalog_unique_and_title_case :
  (forall s1 s2 t1 t2,
      typeForStatus !! s1 = Some t1 -> typeForStatus !! s2 = Some t2 ->
      s1 <> s2 ->
      t1 <> t2 /\ Type_ (New_literal s1) <> Type_ (New_literal s2))
  /\ (forall s t,
      typeForStatus !! s = Some t -> s <> 418 -> strings.Title t = t)
  /\ typeForStatus !! 418 = Some "I'm a teapot"
  /\ strings.Title "I'm a teapot" <> "I'm a teapot".
Proof.
  split; [|split; [|split]].
  - intros s1 s2 t1 t2 H1 H2 Hne. split.
    + eapply catalog_titles_distinct; eauto.
    + intros Heq. apply Hne. by apply New_literal_Type_inj.
  - apply catalog_titles_title_case.
  - vm_compute. reflexivity.
  - vm_compute. discriminate.
Qed.

Lemma catalog_unique_and_title_case_witness :
  ("Not Found" <> "Gone"
   /\ Type_ (New_literal 404) <> Type_ (New_literal 410))
  /\ strings.Title "HTTP Version Not Supported" = "HTTP Version Not Supported".
Proof.
  split.
  - apply (proj1 catalog_unique_and_title_case 404 410 "Not Found" "Gone");
      [vm_compute; reflexivity | vm_compute; reflexivity | lia].
  - apply (proj1 (proj2 catalog_unique_and_title_case) 505);
      [vm_compute; reflexivity | lia].
Defined.

(** C6 (the code departs from it): the catalog has both informal codes, 499
    with the title Client Closed Request, but the title stored for 599 is
    not Network Connect Timeout: the literal carries a trailing word. *)
Theorem catalog_informal_codes :
  typeForStatus !! 499 = Some "Client Closed Request"
  /\ typeForStatus !! 599 = Some "Network Connect Timeout New"
  /\ typeForStatus !! 599 <> Some "Network Connect Timeout".
Proof. vm_compute. repeat split. discriminate. Qed.

(** ** Writing *)

Lemma CanonicalHeaderKey_Content_Type :
  http.CanonicalHeaderKey (http.CanonicalHeaderKey "Content-Type") = "Content-Type".
Proof. vm_compute. reflexivity. Qed.

Lemma rawWrite_working {A} `{HTTPError A} `{Marshaler A}
    (w : ResponseWriter) (obj : A) :
  write_error w = None ->
  rawWrite w obj
  = (mkResponseWriter (calls w ++ one_response (GetStatus obj) (Marshal obj)) None,
     None).
Proof.
  intros Hw. unfold rawWrite, Encode, do_WriteHeader, Header_Set, accept.
  simpl. rewrite Hw, CanonicalHeaderKey_Content_Type.
  unfold one_response. by rewrite <- !app_assoc.
Qed.

Lemma rawWrite_failing {A} `{HTTPError A} `{Marshaler A}
    (w : ResponseWriter) (obj : A) (e : error_val) :
  write_error w = Some e ->
  rawWrite w obj
  = (mkResponseWriter
       (calls w ++ [SetHeader "Content-Type" ContentProblemDetails;
                    WriteHeader (GetStatus obj)]) (Some e),
     Some e).
Proof.
  intros Hw. unfold rawWrite, Encode, do_WriteHeader, Header_Set, accept.
  simpl. rewrite Hw, CanonicalHeaderKey_Content_Type.
  by rewrite <- !app_assoc.
Qed.

Lemma Errorf_non_error (v : any) (h : heap) :
  implements_error v = false ->
  fmt.Errorf "can't write non-error type %T" [v] h
  = Some (errors.New ("can't write non-error type " +:+ fmt.typeString v), h).
Proof. destruct v; intros Hv; try discriminate; reflexivity. Qed.

(** C1: Write(w, err) with a nil err writes nothing and returns nil; with a
    pointer to a ProblemDetails or to a ValidationProblem (the values with a
    status) it is rawWrite on the object, which on a sink that accepts the
    write adds one response to it and returns nil; with a plain error it
    returns that error and leaves the sink as it was; and the type switch,
    given a value that is not an error, returns the formatting error that
    names the type of the value, again without writing. *)
Theorem Write_dispatch :
  (forall w h, Write w None h = Some ((w, None), h))
  /\ (forall w h p pd,
        problems h !! p = Some pd ->
        Write w (Some (ptr_ProblemDetails p)) h = Some (rawWrite w pd, h)
        /\ (write_error w = None ->
            rawWrite w pd
            = (mkResponseWriter
                 (calls w ++ one_response (Status pd) (Marshal pd)) None, None)))
  /\ (forall w h p vp,
        validations h !! p = Some vp ->
        Write w (Some (ptr_ValidationProblem p)) h = Some (rawWrite w vp, h)
        /\ (write_error w = None ->
            rawWrite w vp
            = (mkResponseWriter
                 (calls w ++ one_response (Status (embedded vp)) (Marshal vp)) None,
               None)))
  /\ (forall w h e,
        implements_HTTPError e = false ->
        Write w (Some e) h = Some ((w, Some e), h))
  /\ (forall w h v,
        implements_error v = false ->
        Write_switch w v h
        = Some ((w, Some (errors.New ("can't write non-error type "
                                      +:+ fmt.typeString v))), h)).
Proof.
  split; [reflexivity|].
  split; [|split; [|split]].
  - intros w h p pd Hp. split.
    + unfold Write, Write_switch, of_error, bind.
      by rewrite (load_ProblemDetails_Some _ _ _ Hp).
    + intros Hw. by rewrite rawWrite_working.
  - intros w h p vp Hp. split.
    + unfold Write, Write_switch, of_error, bind.
      by rewrite (load_ValidationProblem_Some _ _ _ Hp).
    + intros Hw. by rewrite rawWrite_working.
  - intros w h [s|msg e|msg es|p|p] He; try discriminate; reflexivity.
  - intros w h v Hv.
    assert (Hsw : Write_switch w v
                  = (let* e := fmt.Errorf "can't write non-error type %T" [v] in
                     ret (w, Some e)))
      by (destruct v; try discriminate; reflexivity).
    rewrite Hsw. unfold bind. by rewrite Errorf_non_error.
Qed.

Lemma Write_dispatch_witness :
  Write working_sink (Some (errors.New "boom")) empty_heap
  = Some ((working_sink, Some (errors.New "boom")), empty_heap)
  /\ Write_switch working_sink (any_int 7) empty_heap
     = Some ((working_sink, Some (errors.New "can't write non-error type int")),
             empty_heap).
Proof.
  split.
  - apply (proj1 (proj2 (proj2 (proj2 Write_dispatch)))). reflexivity.
  - apply (proj2 (proj2 (proj2 (proj2 Write_dispatch))) working_sink empty_heap (any_int 7)).
    reflexivity.
Defined.

(** A caller of Write can only pass an error value, so what it gets back is
    nil, the error it passed, or the error of the sink: the default case of
    the type switch is never taken through Write. *)
Lemma Write_default_unreachable (w : ResponseWriter) (err : error) (h h' : heap)
    (r : ResponseWriter * error) :
  Write w err h = Some (r, h') ->
  r.2 = None \/ r.2 = err \/ r.2 = write_error w.
Proof.
  destruct err as [[s|msg e|msg es|p|p]|]; unfold Write, Write_switch, of_error, bind, ret.
  - intros [= <- <-]. right. by left.
  - intros [= <- <-]. right. by left.
  - intros [= <- <-]. right. by left.
  - unfold load_ProblemDetails. destruct (problems h !! p) as [pd|]; [|done].
    intros [= <- <-]. destruct (write_error w) as [e|] eqn:Hw.
    + right. right. by rewrite (rawWrite_failing _ _ e).
    + left. by rewrite rawWrite_working.
  - unfold load_ValidationProblem. destruct (validations h !! p) as [vp|]; [|done].
    intros [= <- <-]. destruct (write_error w) as [e|] eqn:Hw.
    + right. right. by rewrite (rawWrite_failing _ _ e).
    + left. by rewrite rawWrite_working.
  - intros [= <- <-]. by left.
Qed.

(** ** Text *)

Lemma coerce_single (c0 : ascii) (t : string) :
  utf8.single c0 = true -> json.coerce (String c0 t) = String c0 (json.coerce t).
Proof. intros H. simpl. by rewrite H. Qed.

Lemma coerce_RuneError (t : string) :
  json.coerce (utf8.RuneError +:+ t) = utf8.RuneError +:+ json.coerce t.
Proof. reflexivity. Qed.

(** Every step of [coerce] puts out a chunk that [coerce] keeps, whatever
    follows it, and goes on with a shorter string. *)
Lemma coerce_step (c0 : ascii) (s1 : string) :
  exists chunk rest,
    json.coerce (String c0 s1) = chunk +:+ json.coerce rest
    /\ (String.length rest <= String.length s1)%nat
    /\ (forall t, json.coerce (chunk +:+ t) = chunk +:+ json.coerce t).
Proof.
  destruct (utf8.single c0) eqn:H0.
  { exists (String c0 ""), s1. split; [by apply coerce_single|]. split; [lia|].
    intros t. by apply coerce_single. }
  assert (Hbad : exists chunk rest,
             utf8.RuneError +:+ json.coerce s1 = chunk +:+ json.coerce rest
             /\ (String.length rest <= String.length s1)%nat
             /\ (forall t, json.coerce (chunk +:+ t) = chunk +:+ json.coerce t)).
  { exists utf8.RuneError, s1. split; [done|]. split; [lia|]. apply coerce_RuneError. }
  destruct s1 as [|c1 s2]; [simpl; rewrite H0; exact Hbad|].
  destruct (utf8.lead2 c0 && utf8.cont c1) eqn:H2.
  { exists (String c0 (String c1 "")), s2. split; [simpl; by rewrite H0, H2|].
    split; [simpl; lia|]. intros t. simpl. by rewrite H0, H2. }
  destruct s2 as [|c2 s3]; [simpl; rewrite H0, H2; exact Hbad|].
  destruct (utf8.lead3 c0 c1 && utf8.cont c2) eqn:H3.
  { exists (String c0 (String c1 (String c2 ""))), s3.
    split; [simpl; by rewrite H0, H2, H3|].
    split; [simpl; lia|]. intros t. simpl. by rewrite H0, H2, H3. }
  destruct s3 as [|c3 s4]; [simpl; rewrite H0, H2, H3; exact Hbad|].
  destruct (utf8.lead4 c0 c1 && utf8.cont c2 && utf8.cont c3) eqn:H4.
  { exists (String c0 (String c1 (String c2 (String c3 "")))), s4.
    split; [simpl; by rewrite H0, H2, H3, H4|].
    split; [simpl; lia|]. intros t. simpl. by rewrite H0, H2, H3, H4. }
  simpl. rewrite H0, H2, H3, H4. exact Hbad.
Qed.

(** The text of a text is the text itself. *)
Lemma coerce_idem (s : string) : json.coerce (json.coerce s) = json.coerce s.
Proof.
  assert (Hall : forall n s, (String.length s <= n)%nat ->
                             json.coerce (json.coerce s) = json.coerce s).
  { clear s. induction n as [|n IH]; intros [|c0 s1] Hlen; try done.
    - simpl in Hlen. lia.
    - destruct (coerce_step c0 s1) as (chunk & rest & Heq & Hrest & Hkeep).
      rewrite Heq, Hkeep, IH; [done|]. simpl in Hlen. lia. }
  by apply (Hall (String.length s)).
Qed.

(** Well-formed text is left as it is. *)
Lemma coerce_valid (s : string) :
  utf8.ValidString s = true -> json.coerce s = s.
Proof.
  assert (Hall : forall n s, (String.length s <= n)%nat ->
                             utf8.ValidString s = true -> json.coerce s = s).
  { clear s. induction n as [|n IH]; intros [|c0 s1] Hlen; try done.
    { simpl in Hlen. lia. }
    simpl in Hlen. simpl.
    destruct (utf8.single c0); [intros Hv; by rewrite IH by (done || lia)|].
    destruct s1 as [|c1 s2]; [done|]. simpl in Hlen.
    destruct (utf8.lead2 c0 && utf8.cont c1);
      [intros Hv; by rewrite IH by (done || lia)|].
    destruct s2 as [|c2 s3]; [done|]. simpl in Hlen.
    destruct (utf8.lead3 c0 c1 && utf8.cont c2);
      [intros Hv; by rewrite IH by (done || lia)|].
    destruct s3 as [|c3 s4]; [done|]. simpl in Hlen.
    destruct (utf8.lead4 c0 c1 && utf8.cont c2 && utf8.cont c3); [|done].
    simpl. intros Hv. by rewrite IH by (done || lia). }
  by apply (Hall (String.length s)).
Qed.

(** The text of a string is empty only for the empty string. *)
Lemma coerce_nonempty (s : string) : json.coerce s = "" -> s = "".
Proof.
  destruct s as [|c0 s1]; [done|]. simpl.
  destruct (utf8.single c0); [done|].
  destruct s1 as [|c1 s2]; [done|].
  destruct (utf8.lead2 c0 && utf8.cont c1); [done|].
  destruct s2 as [|c2 s3]; [done|].
  destruct (utf8.lead3 c0 c1 && utf8.cont c2); [done|].
  destruct s3 as [|c3 s4]; [done|].
  destruct (utf8.lead4 c0 c1 && utf8.cont c2 && utf8.cont c3); done.
Qed.

Lemma ascii_valid (s : string) :
  strings.is_ascii s = true -> utf8.ValidString s = true.
Proof.
  induction s as [|c s IH]; [done|]. simpl. intros [Hc Hs]%andb_true_iff.
  assert (Hsingle : utf8.single c = true).
  { destruct c as [[] [] [] [] [] [] [] []]; vm_compute in Hc |- *; congruence. }
  rewrite Hsingle. by apply IH.
Qed.

Lemma coerce_ascii (s : string) : strings.is_ascii s = true -> json.coerce s = s.
Proof. intros H. by apply coerce_valid, ascii_valid. Qed.

Lemma is_ascii_app (s t : string) :
  strings.is_ascii s = true -> strings.is_ascii t = true ->
  strings.is_ascii (s +:+ t) = true.
Proof.
  induction s as [|c s IH]; [done|].
  change (String c s +:+ t) with (String c (s +:+ t)). simpl.
  intros [Hc Hs]%andb_true_iff Ht. rewrite Hc. by apply IH.
Qed.

Lemma pretty_N_go_ascii (x : N) :
  forall s, strings.is_ascii s = true -> strings.is_ascii (pretty_N_go x s) = true.
Proof.
  induction (N.lt_wf_0 x) as [x _ IH]; intros s Hs.
  destruct (decide (0 < x)%N) as [Hx|Hx].
  - rewrite pretty_N_go_step by done. apply IH.
    + apply N.div_lt; lia.
    + simpl. rewrite Hs, andb_true_r.
      unfold pretty_N_char. by repeat case_match.
  - assert (x = 0%N) as -> by lia. by rewrite pretty_N_go_0.
Qed.

Lemma Itoa_ascii (i : Z) : strings.is_ascii (strconv.Itoa i) = true.
Proof.
  assert (Hpos : forall p : positive, strings.is_ascii (pretty p) = true).
  { intros p. unfold pretty, pretty_positive, pretty, pretty_N.
    rewrite decide_False by done. by apply pretty_N_go_ascii. }
  unfold strconv.Itoa, pretty, pretty_Z. destruct i as [|p|p]; [done|apply Hpos|].
  apply (is_ascii_app "-"); [done|apply Hpos].
Qed.

Lemma coerce_Type_New_literal (status : Z) :
  json.coerce (Type_ (New_literal status)) = Type_ (New_literal status).
Proof.
  apply coerce_ascii. simpl.
  apply (is_ascii_app "https://httpstatuses.com/"); [done|apply Itoa_ascii].
Qed.

(** ** Encoding and decoding *)

(** Decoding the document of a ProblemDetails into the zero value gives the
    text of the exported fields back; the unexported cause is not
    serialized. *)
Lemma Unmarshal_Marshal_ProblemDetails (pd : ProblemDetails) :
  Unmarshal_ProblemDetails (Marshal pd) zero_ProblemDetails
  = Some (coerce_ProblemDetails pd).
Proof.
  destruct pd as [st ti de ty ins we].
  unfold Marshal, Marshal_ProblemDetails, members_ProblemDetails,
    omitempty_int, omitempty_string, coerce_ProblemDetails. simpl.
  destruct (decide (st = 0)) as [->|_], (decide (ti = "")) as [->|_],
    (decide (de = "")) as [->|_], (decide (ty = "")) as [->|_],
    (decide (ins = "")) as [->|_];
    cbv -[coerce]; rewrite ?coerce_idem; reflexivity.
Qed.

Lemma Unmarshal_Marshal_ValidationError (ve : ValidationError) :
  Unmarshal_ValidationError (Marshal ve) = Some (coerce_ValidationError ve).
Proof.
  destruct ve. cbv -[coerce]. by rewrite !coerce_idem.
Qed.

Lemma mapM_Unmarshal_ValidationError (l : list ValidationError) :
  mapM Unmarshal_ValidationError (map Marshal l)
  = Some (map coerce_ValidationError l).
Proof.
  induction l as [|ve l IH]; [reflexivity|].
  cbn [map mapM]. rewrite Unmarshal_Marshal_ValidationError, IH. reflexivity.
Qed.

Lemma Unmarshal_Marshal_ValidationProblem (vp : ValidationProblem) :
  Unmarshal_ValidationProblem (Marshal vp) zero_ValidationProblem
  = Some (mkValidationProblem (coerce_ProblemDetails (embedded vp))
                              (map coerce_ValidationError (ValidationErrors vp))).
Proof.
  destruct vp as [[st ti de ty ins we] l].
  pose proof (mapM_Unmarshal_ValidationError l) as HM.
  unfold Marshal at 1, Marshal_ValidationProblem, members_ProblemDetails,
    omitempty_int, omitempty_string, omitempty_slice, coerce_ProblemDetails. simpl.
  destruct (decide (st = 0)) as [->|_], (decide (ti = "")) as [->|_],
    (decide (de = "")) as [->|_], (decide (ty = "")) as [->|_],
    (decide (ins = "")) as [->|_];
    (destruct l as [|ve l]; [cbv -[coerce]; rewrite ?coerce_idem; reflexivity|]);
    cbn -[mapM Marshal coerce_ValidationError] in HM;
    unfold assign_all, assign_ValidationProblem;
    cbn -[mapM Marshal coerce_ValidationError];
    rewrite HM; cbv -[coerce coerce_ValidationError map];
    rewrite ?coerce_idem; reflexivity.
Qed.

(** ** Messages of error values *)

(** The message of an error value depends on the heap only through the
    titles of the problem objects. *)
Lemma error_Error_frame (e : error_val) (h h' : heap) (msg : string) :
  (forall q, Title <$> problems h' !! q = Title <$> problems h !! q) ->
  (forall q, (fun vp => Title (embedded vp)) <$> validations h' !! q
             = (fun vp => Title (embedded vp)) <$> validations h !! q) ->
  eval (error_Error e) h = Some msg ->
  error_Error e h' = Some (msg, h').
Proof.
  intros Hpd Hvp. unfold eval.
  destruct e as [s|m e|m es|p|p]; simpl; unfold bind, ret.
  - by intros [= ->].
  - by intros [= ->].
  - by intros [= ->].
  - unfold load_ProblemDetails. specialize (Hpd p).
    destruct (problems h !! p) as [pd|], (problems h' !! p) as [pd'|];
      simpl in *; try done.
    intros [= <-]. injection Hpd as Hpd. unfold Error, ProblemDetails_GoError.
    by rewrite Hpd.
  - unfold load_ValidationProblem. specialize (Hvp p).
    destruct (validations h !! p) as [vp|], (validations h' !! p) as [vp'|];
      simpl in *; try done.
    intros [= <-]. injection Hvp as Hvp.
    unfold Error, ValidationProblem_GoError, Error, ProblemDetails_GoError.
    by rewrite Hvp.
Qed.


(** ** The fluent mutators *)

Lemma WithErr_run (h : heap) (p : loc) (pd : ProblemDetails) (err : error)
    (msg : string) :
  problems h !! p = Some pd ->
  (Detail pd = "" -> exists e, err = Some e /\ eval (error_Error e) h = Some msg) ->
  PD.WithErr p err h
  = Some (p, mkHeap (<[p := mkProblemDetails (Status pd) (Title pd)
                             (if decide (Detail pd = "") then msg else Detail pd)
                             (Type_ pd) (Instance_ pd) err]> (problems h))
                    (validations h)).
Proof.
  intros Hp Hmsg. unfold PD.WithErr, bind.
  rewrite (modify_ProblemDetails_Some _ _ _ _ Hp).
  set (h1 := mkHeap _ _).
  assert (Hp1 : problems h1 !! p = Some (set_wrappedError err pd))
    by apply lookup_insert_eq.
  rewrite (load_ProblemDetails_Some _ _ _ Hp1).
  change (Detail (set_wrappedError err pd)) with (Detail pd).
  destruct (decide (Detail pd = "")) as [Hd|Hd].
  - destruct (Hmsg Hd) as (e & -> & He). simpl.
    rewrite (error_Error_frame e h h1 msg); [| |done|done].
    + rewrite (modify_ProblemDetails_Some _ _ _ _ Hp1). unfold ret, h1. simpl.
      by rewrite insert_insert_eq.
    + intros q. unfold h1. simpl. destruct (decide (p = q)) as [<-|Hne].
      * by rewrite lookup_insert_eq, Hp.
      * by rewrite lookup_insert_ne.
  - reflexivity.
Qed.

(** C7: WithErr(err) on a ProblemDetails stores err as the wrapped error, so
    that Unwrap returns err afterwards; an empty detail is set to the
    message of err, a detail that is not empty is kept; the pointer returned
    is the receiver, and no other object changes. (With an empty detail the
    message of err is asked for, so err is then an error value.) *)
Theorem WithErr_captures_cause (h : heap) (p : loc) (pd : ProblemDetails)
    (err : error) (msg : string) :
  problems h !! p = Some pd ->
  (Detail pd = "" ->
   exists e, err = Some e /\ eval (error_Error e) h = Some msg) ->
  exists h',
    PD.WithErr p err h = Some (p, h')
    /\ PD.Unwrap p h' = Some (err, h')
    /\ problems h' !! p
       = Some (mkProblemDetails (Status pd) (Title pd)
                 (if decide (Detail pd = "") then msg else Detail pd)
                 (Type_ pd) (Instance_ pd) err)
    /\ (forall q, q <> p -> problems h' !! q = problems h !! q)
    /\ validations h' = validations h.
Proof.
  intros Hp Hmsg. eexists. split.
  - apply (WithErr_run h p pd err msg Hp Hmsg).
  - simpl. split; [|split; [|split]].
    + unfold PD.Unwrap, bind, load_ProblemDetails. simpl.
      by rewrite lookup_insert_eq.
    + apply lookup_insert_eq.
    + intros q Hq. by apply lookup_insert_ne.
    + reflexivity.
Qed.

Lemma WithErr_captures_cause_witness :
  exists h',
    PD.WithErr 1%positive (Some (errors.New "disk full"))
      (mkHeap {[ 1%positive := New_literal 507 ]} ∅) = Some (1%positive, h')
    /\ problems h' !! 1%positive
       = Some (mkProblemDetails 507 "Insufficient Storage" "disk full"
                 "https://httpstatuses.com/507" "" (Some (errorString "disk full"))).
Proof.
  destruct (WithErr_captures_cause (mkHeap {[ 1%positive := New_literal 507 ]} ∅)
              1%positive (New_literal 507) (Some (errors.New "disk full"))
              "disk full")
    as (h' & Hrun & _ & Hobj & _).
  - vm_compute. reflexivity.
  - intros _. exists (errors.New "disk full"). split; reflexivity.
  - exists h'. split; [exact Hrun|].
    refine (eq_trans Hobj _). vm_compute. reflexivity.
Defined.

Example WithErr_keeps_detail :
  eval (let* p := New 404 in
        let* p := PD.WithDetail p "No such page" in
        let* p := PD.WithErr p (Some (errors.New "row not found")) in
        load_ProblemDetails p) empty_heap
  = Some (mkProblemDetails 404 "Not Found" "No such page"
            "https://httpstatuses.com/404" "" (Some (errorString "row not found"))).
Proof. vm_compute. reflexivity. Qed.

(** Asking the nil error for its message is a panic. *)
Example WithErr_nil_empty_detail :
  eval (let* p := New 404 in PD.WithErr p None) empty_heap = None.
Proof. vm_compute. reflexivity. Qed.

(** ** MustWrite *)

Lemma PD_Write_run (h : heap) (p : loc) (pd : ProblemDetails) (w : ResponseWriter) :
  problems h !! p = Some pd ->
  PD.Write p w h = Some (rawWrite w pd, h).
Proof.
  intros Hp. unfold PD.Write, bind. by rewrite (load_ProblemDetails_Some _ _ _ Hp).
Qed.






Example MustWrite_plain_X :
  eval (MustWrite working_sink (Some (errors.New "X"))) empty_heap
  = Some (mkResponseWriter
            (one_response 500
               (JObject [("status", JNumber 500);
                         ("title", JString "Internal Server Error");
                         ("detail", JString "X");
                         ("type", JString "https://httpstatuses.com/500")]))
            None, None).
Proof. vm_compute. reflexivity. Qed.

(** What the hypothesis on the sink rules out: on a sink whose Write fails,
    the failure of the first attempt is itself escalated, so the header and
    the status line are sent twice and no body arrives. *)
Example MustWrite_failing_sink :
  eval (let* p := New 404 in
        MustWrite (mkResponseWriter [] (Some (errors.New "broken pipe")))
                  (Some (ptr_ProblemDetails p))) empty_heap
  = Some (mkResponseWriter
            [SetHeader "Content-Type" ContentProblemDetails; WriteHeader 404;
             SetHeader "Content-Type" ContentProblemDetails; WriteHeader 500]
            (Some (errorString "broken pipe")),
          Some (errorString "broken pipe")).
Proof. vm_compute. reflexivity. Qed.

(** ** The round trip *)

Lemma Result_one_response (status : Z) (doc : JSON) (we : error) :
  validStatus status = true ->
  bodyAllowedForStatus status = true ->
  Result (mkResponseWriter (one_response status doc) we)
  = Some (mkResponse status {[ "Content-Type" := ContentProblemDetails ]} [doc]).
Proof.
  intros Hv Hb. unfold Result. simpl. rewrite Hv, Hb. simpl.
  by rewrite insert_empty.
Qed.

Lemma write_problem_run (h : heap) (status : Z) (detail : string) :
  eval (write_problem status detail) h
  = Some (mkResponseWriter
            (one_response status (Marshal (set_Detail detail (New_literal status))))
            None, None).
Proof.
  destruct (alloc_ProblemDetails_spec (New_literal status) h) as (p & Halloc & _).
  unfold eval, write_problem, bind, New. rewrite Halloc.
  unfold PD.WithDetail, bind.
  erewrite modify_ProblemDetails_Some by apply lookup_insert_eq.
  unfold ret, Write, Write_switch, of_error, bind.
  erewrite load_ProblemDetails_Some by apply lookup_insert_eq.
  rewrite rawWrite_working by reflexivity.
  reflexivity.
Qed.

Lemma decode_response_run (status : Z) (pd : ProblemDetails) :
  validStatus status = true ->
  bodyAllowedForStatus status = true ->
  decode_response (mkResponseWriter (one_response status (Marshal pd)) None)
  = Some (mkResponse status {[ "Content-Type" := ContentProblemDetails ]}
            [Marshal pd],
          coerce_ProblemDetails pd).
Proof.
  intros Hv Hb. unfold decode_response.
  rewrite (Result_one_response _ _ _ Hv Hb). cbn [mbind option_bind Body].
  by rewrite Unmarshal_Marshal_ProblemDetails.
Qed.

Lemma covered_writable (status : Z) :
  covered status ->
  validStatus status = true /\ bodyAllowedForStatus status = true.
Proof.
  intros Hc. destruct (covered_in_range status Hc) as [Hlo Hhi].
  unfold validStatus, bodyAllowedForStatus. split.
  - apply andb_true_intro. split; apply Z.leb_le; lia.
  - apply andb_true_intro. split; [apply andb_true_intro; split|].
    + apply negb_true_iff, andb_false_intro2, Z.leb_gt. lia.
    + apply negb_true_iff, Z.eqb_neq. lia.
    + apply negb_true_iff, Z.eqb_neq. lia.
Qed.

(** C3 as the spec has it fails: a status without a catalog entry comes back
    with an empty title. *)
Lemma round_trip_uncovered_status : ~ round_trips empty_heap 420 "Enhance your calm".
Proof.
  intros (w & resp & pd & Hrun & Hdec & _ & _ & _ & Htitle & _).
  rewrite write_problem_run in Hrun. injection Hrun as <-.
  rewrite decode_response_run in Hdec by reflexivity. injection Hdec as _ <-.
  apply Htitle. vm_compute. reflexivity.
Qed.

(** So does the exact detail: a detail that is not valid UTF-8 comes back
    with the offending byte replaced by U+FFFD. *)
Example round_trip_invalid_utf8 :
  ~ round_trips empty_heap 404 ("caf" +:+ String "233" "").
Proof.
  intros (w & resp & pd & Hrun & Hdec & _ & _ & _ & _ & _ & Hdetail).
  rewrite write_problem_run in Hrun. injection Hrun as <-.
  rewrite decode_response_run in Hdec by reflexivity. injection Hdec as _ <-.
  vm_compute in Hdetail. discriminate.
Qed.

(** C3 (amended): for every status the catalog covers and every detail
    string that is valid UTF-8, the problem built by New and WithDetail,
    written by Write to a sink that accepts the write, gives a response
    with Content-Type application/problem+json and the problem's status,
    whose body decodes to the same status, a title and a type that are not
    empty, and the detail string as it was supplied. *)
Theorem round_trip_covered (h : heap) (status : Z) (detail : string) :
  covered status -> utf8.ValidString detail = true ->
  round_trips h status detail.
Proof.
  intros Hc Hd. destruct (covered_writable status Hc) as [Hv Hb].
  destruct Hc as [t Ht].
  eexists _, _, _. split; [apply write_problem_run|].
  split; [by apply decode_response_run|].
  split; [apply lookup_singleton_eq|].
  split; [reflexivity|]. split; [reflexivity|].
  split; [|split].
  - cbn [coerce_ProblemDetails Title set_Detail New_literal].
    unfold map_index. rewrite Ht. cbn [default from_option].
    destruct (catalog_titles_ascii status t Ht) as [Hne Hascii].
    by rewrite coerce_ascii.
  - change (Type_ (coerce_ProblemDetails (set_Detail detail (New_literal status))))
      with (json.coerce (Type_ (New_literal status))).
    rewrite coerce_Type_New_literal. discriminate.
  - cbn [coerce_ProblemDetails Detail set_Detail]. by apply coerce_valid.
Qed.

Lemma round_trip_covered_witness : round_trips empty_heap 404 "No such page".
Proof.
  apply round_trip_covered; [exists "Not Found"|]; vm_compute; reflexivity.
Defined.

(** ** The validation extension *)

Lemma NewValidationProblem_run (h : heap) :
  exists p,
    validations h !! p = None
    /\ NewValidationProblem h
       = Some (p, mkHeap (problems h)
                    (<[p := mkValidationProblem
                              (mkProblemDetails 400 "" "Validation error" "" "" None)
                              []]> (validations h))).
Proof.
  unfold NewValidationProblem.
  destruct (alloc_ValidationProblem_spec
              (mkValidationProblem
                 (mkProblemDetails 400 "" "Validation error" "" "" None) []) h)
    as (p & Halloc & Hfresh).
  exists p. split; [done|]. exact Halloc.
Qed.

Lemma Add_run (h : heap) (p : loc) (vp : ValidationProblem) (field reason : string) :
  validations h !! p = Some vp ->
  VP.Add p field reason h
  = Some (tt, mkHeap (problems h)
                (<[p := mkValidationProblem (embedded vp)
                          (ValidationErrors vp ++ [mkValidationError field reason])]>
                   (validations h))).
Proof.
  intros Hp. unfold VP.Add. by rewrite (modify_ValidationProblem_Some _ _ _ _ Hp).
Qed.

Lemma add_two_and_write_run (h : heap) (f1 r1 f2 r2 : string) :
  eval (add_two_and_write f1 r1 f2 r2) h
  = Some (mkResponseWriter
            (one_response 400
               (Marshal (mkValidationProblem
                           (mkProblemDetails 400 "" "Validation error" "" "" None)
                           [mkValidationError f1 r1; mkValidationError f2 r2])))
            None, None).
Proof.
  destruct (NewValidationProblem_run h) as (p & _ & Hnew).
  unfold eval, add_two_and_write, bind. rewrite Hnew.
  erewrite Add_run by apply lookup_insert_eq.
  erewrite Add_run by apply lookup_insert_eq.
  unfold MustWrite, Write, Write_switch, of_error, bind.
  erewrite load_ValidationProblem_Some by apply lookup_insert_eq.
  unfold ret. rewrite rawWrite_working by reflexivity. reflexivity.
Qed.

(** C9: NewValidationProblem returns a fresh ValidationProblem with status
    400, the detail Validation error and no field errors; Add appends one
    field error at the end of the list, whatever the list already holds;
    and after two Adds, MustWrite on a sink that accepts the write sends one
    response with status 400 whose invalid-params member has exactly two
    entries, in the order added, each pairing the text of its field name
    with the text of its reason (bytes that are not UTF-8 replaced by
    U+FFFD), and which decodes to status 400 and these two field errors:
    the very names and reasons that were added when they are valid UTF-8. *)
Theorem ValidationProblem_add_and_write :
  (forall h, exists p h' vp,
      NewValidationProblem h = Some (p, h')
      /\ validations h !! p = None
      /\ validations h' !! p = Some vp
      /\ GetStatus vp = 400
      /\ Detail (embedded vp) = "Validation error"
      /\ ValidationErrors vp = [])
  /\ (forall h p vp field reason,
      validations h !! p = Some vp ->
      exists h',
        VP.Add p field reason h = Some (tt, h')
        /\ validations h' !! p
           = Some (mkValidationProblem (embedded vp)
                     (ValidationErrors vp ++ [mkValidationError field reason]))
        /\ (forall q, q <> p -> validations h' !! q = validations h !! q)
        /\ problems h' = problems h)
  /\ (forall h f1 r1 f2 r2, exists w doc resp vp,
      eval (add_two_and_write f1 r1 f2 r2) h = Some (w, None)
      /\ calls w = one_response 400 doc
      /\ Result w = Some resp
      /\ StatusCode resp = 400
      /\ Body resp = [doc]
      /\ member "invalid-params" doc
         = Some (JArray [JObject [("name", JString (json.coerce f1));
                                  ("reason", JString (json.coerce r1))];
                         JObject [("name", JString (json.coerce f2));
                                  ("reason", JString (json.coerce r2))]])
      /\ Unmarshal_ValidationProblem doc zero_ValidationProblem = Some vp
      /\ Status (embedded vp) = 400
      /\ ValidationErrors vp
         = [mkValidationError (json.coerce f1) (json.coerce r1);
            mkValidationError (json.coerce f2) (json.coerce r2)]
      /\ (utf8.ValidString f1 = true -> utf8.ValidString r1 = true ->
          utf8.ValidString f2 = true -> utf8.ValidString r2 = true ->
          member "invalid-params" doc
          = Some (JArray [JObject [("name", JString f1); ("reason", JString r1)];
                          JObject [("name", JString f2); ("reason", JString r2)]])
          /\ ValidationErrors vp
             = [mkValidationError f1 r1; mkValidationError f2 r2])).
Proof.
  split; [|split].
  - intros h. destruct (NewValidationProblem_run h) as (p & Hfresh & Hnew).
    eexists p, _, _. split; [exact Hnew|]. split; [done|].
    split; [apply lookup_insert_eq|]. by repeat split.
  - intros h p vp field reason Hp. eexists. split; [by apply Add_run|].
    simpl. split; [apply lookup_insert_eq|]. split; [|reflexivity].
    intros q Hq. by apply lookup_insert_ne.
  - intros h f1 r1 f2 r2. eexists _, _, _, _.
    split; [apply add_two_and_write_run|].
    split; [reflexivity|].
    split; [by apply Result_one_response|].
    split; [reflexivity|]. split; [reflexivity|]. split; [reflexivity|].
    split; [apply Unmarshal_Marshal_ValidationProblem|].
    split; [reflexivity|]. split; [reflexivity|].
    intros Hf1 Hr1 Hf2 Hr2. unfold coerce_ValidationError.
    cbn [ValidationErrors map FieldName Error_].
    change (member "invalid-params" _)
      with (Some (JArray [JObject [("name", JString (json.coerce f1));
                                   ("reason", JString (json.coerce r1))];
                          JObject [("name", JString (json.coerce f2));
                                   ("reason", JString (json.coerce r2))]])).
    rewrite (coerce_valid f1 Hf1), (coerce_valid r1 Hr1),
      (coerce_valid f2 Hf2), (coerce_valid r2 Hr2).
    split; reflexivity.
Qed.

Lemma ValidationProblem_add_and_write_witness :
  exists h',
    VP.Add 1%positive "name" "You must provide your name"
      (mkHeap ∅ {[ 1%positive :=
                     mkValidationProblem zero_ProblemDetails
                       [mkValidationError "name" "You must provide your name"] ]})
    = Some (tt, h')
    /\ validations h' !! 1%positive
       = Some (mkValidationProblem zero_ProblemDetails
                 [mkValidationError "name" "You must provide your name";
                  mkValidationError "name" "You must provide your name"]).
Proof.
  destruct (proj1 (proj2 ValidationProblem_add_and_write)
              (mkHeap ∅ {[ 1%positive :=
                     mkValidationProblem zero_ProblemDetails
                       [mkValidationError "name" "You must provide your name"] ]})
              1%positive
              (mkValidationProblem zero_ProblemDetails
                 [mkValidationError "name" "You must provide your name"])
              "name" "You must provide your name")
    as (h' & Hrun & Hobj & _).
  - vm_compute. reflexivity.
  - exists h'. split; [exact Hrun|]. exact Hobj.
Defined.

Example validation_test_scenario :
  eval (add_two_and_write "email" "Must be a valid e-mail address"
                          "name" "You must provide your name") empty_heap
  = Some (mkResponseWriter
            (one_response 400
               (JObject
                  [("status", JNumber 400);
                   ("detail", JString "Validation error");
                   ("invalid-params",
                    JArray
                      [JObject [("name", JString "email");
                                ("reason", JString "Must be a valid e-mail address")];
                       JObject [("name", JString "name");
                                ("reason", JString "You must provide your name")]])]))
            None, None).
Proof. vm_compute. reflexivity. Qed.

Lemma member_type_New_literal (status : Z) :
  member "type" (Marshal (New_literal status))
  = Some (JString ("https://httpstatuses.com/" +:+ strconv.Itoa status)).
Proof.
  unfold Marshal, Marshal_ProblemDetails, members_ProblemDetails,
    omitempty_int, omitempty_string.
  pose proof (coerce_Type_New_literal status) as Hc.
  cbn [Status Title Detail Type_ Instance_ New_literal] in Hc |- *. rewrite Hc.
  destruct (decide (status = 0)), (decide (map_index typeForStatus status = ""));
    reflexivity.
Qed.

Lemma member_title_New_literal (status : Z) (t : string) :
  typeForStatus !! status = Some t ->
  member "title" (Marshal (New_literal status)) = Some (JString t).
Proof.
  intros Ht. destruct (catalog_titles_ascii status t Ht) as [Hne Hascii].
  unfold Marshal, Marshal_ProblemDetails, members_ProblemDetails,
    omitempty_int, omitempty_string. cbn [Status Title Detail Type_ Instance_ New_literal].
  unfold map_index. rewrite Ht. cbn [default].
  rewrite (decide_False (P := t = "")) by done.
  change (id t) with t. rewrite (coerce_ascii t Hascii).
  destruct (decide (status = 0)); reflexivity.
Qed.

(** C10: NewValidationProblem sets the status to 400 and the detail to
    Validation error and nothing else: title and type are empty, so the
    Error method gives the empty string and the JSON document has the
    members status and detail only, neither title nor type, also after
    field errors are added; a ProblemDetails made by New always has a type
    member, and a title member and error message for a covered status. *)
Theorem NewValidationProblem_untitled (h : heap) :
  exists p h' vp,
    NewValidationProblem h = Some (p, h')
    /\ validations h' !! p = Some vp
    /\ embedded vp = mkProblemDetails 400 "" "Validation error" "" "" None
    /\ Title (embedded vp) = "" /\ Type_ (embedded vp) = ""
    /\ Error vp = ""
    /\ eval (error_Error (ptr_ValidationProblem p)) h' = Some ""
    /\ Marshal vp = JObject [("status", JNumber 400);
                             ("detail", JString "Validation error")]
    /\ (forall l, member "title" (Marshal (set_ValidationErrors l vp)) = None
                  /\ member "type" (Marshal (set_ValidationErrors l vp)) = None)
    /\ (forall status,
          member "type" (Marshal (New_literal status))
          = Some (JString ("https://httpstatuses.com/" +:+ strconv.Itoa status)))
    /\ (forall status t,
          typeForStatus !! status = Some t ->
          t <> "" /\ Error (New_literal status) = t
          /\ member "title" (Marshal (New_literal status)) = Some (JString t)).
Proof.
  destruct (NewValidationProblem_run h) as (p & _ & Hnew).
  eexists p, _, _. split; [exact Hnew|].
  split; [apply lookup_insert_eq|].
  split; [reflexivity|]. split; [reflexivity|]. split; [reflexivity|].
  split; [reflexivity|]. split.
  { unfold eval. simpl. unfold bind, load_ValidationProblem. simpl.
    by rewrite lookup_insert_eq. }
  split; [reflexivity|]. split.
  { intros [|ve l]; split; reflexivity. }
  split; [apply member_type_New_literal|].
  intros status t Ht. split; [by apply (catalog_titles_ascii status)|]. split.
  - unfold Error, ProblemDetails_GoError. simpl. unfold map_index. by rewrite Ht.
  - by apply member_title_New_literal.
Qed.

Lemma NewValidationProblem_untitled_witness :
  "Bad Request" <> ""
  /\ Error (New_literal 400) = "Bad Request"
  /\ member "title" (Marshal (New_literal 400)) = Some (JString "Bad Request").
Proof.
  destruct (NewValidationProblem_untitled empty_heap)
    as (p & h' & vp & _ & _ & _ & _ & _ & _ & _ & _ & _ & _ & Hnew).
  apply (Hnew 400 "Bad Request"). vm_compute. reflexivity.
Defined.

(** ** Formatting *)

Lemma string_ind2 (P : string -> Prop) :
  P "" ->
  (forall c, P (String c "")) ->
  (forall c1 c2 s, P s -> P (String c2 s) -> P (String c1 (String c2 s))) ->
  forall s, P s.
Proof.
  intros H0 H1 H2 s.
  assert (Hboth : P s /\ forall c, P (String c s)).
  { induction s as [|c s [IH1 IH2]]; [by split|].
    split; [apply IH2|]. intros c'. by apply H2. }
  apply Hboth.
Qed.

(** Formatting reads the heap and leaves it as it is. *)
Lemma reads_only_ret {A} (x : A) : reads_only (ret x).
Proof. intros h y h'. by intros [= _ <-]. Qed.

Lemma reads_only_panic {A} : reads_only (@panic A).
Proof. intros h y h'. discriminate. Qed.

Lemma reads_only_bind {A B} (m : M A) (k : A -> M B) :
  reads_only m -> (forall x, reads_only (k x)) -> reads_only (bind m k).
Proof.
  intros Hm Hk h y h'. unfold bind.
  destruct (m h) as [[x h1]|] eqn:Hrun; [|done].
  apply Hm in Hrun as ->. apply Hk.
Qed.

Lemma reads_only_load_ProblemDetails (p : loc) : reads_only (load_ProblemDetails p).
Proof.
  intros h y h'. unfold load_ProblemDetails.
  destruct (problems h !! p); [by intros [= _ <-]|done].
Qed.

Lemma reads_only_load_ValidationProblem (p : loc) :
  reads_only (load_ValidationProblem p).
Proof.
  intros h y h'. unfold load_ValidationProblem.
  destruct (validations h !! p); [by intros [= _ <-]|done].
Qed.

Create HintDb reads.
#[local] Hint Resolve reads_only_ret reads_only_panic
  reads_only_load_ProblemDetails reads_only_load_ValidationProblem : reads.

Ltac reads_only_tac :=
  repeat first
    [ solve [auto with reads]
    | apply reads_only_bind; [|intros ?]
    | match goal with
      | |- reads_only (if ?b then _ else _) => destruct b
      | |- reads_only (match ?x with _ => _ end) => destruct x
      end ].

Lemma reads_only_error_Error (e : error_val) : reads_only (error_Error e).
Proof. unfold error_Error. reads_only_tac. Qed.

#[local] Hint Resolve reads_only_error_Error : reads.

Lemma reads_only_beyond {A} : reads_only (@fmt.beyond A).
Proof. intros h y h'. discriminate. Qed.

Lemma reads_only_recover (m : M string) :
  reads_only m -> reads_only (fmt.recover m).
Proof.
  intros Hm h y h'. unfold fmt.recover.
  destruct (m h) as [[x h1]|] eqn:Hrun.
  - intros [= <- <-]. by apply Hm in Hrun.
  - by intros [= _ <-].
Qed.

#[local] Hint Resolve reads_only_beyond reads_only_recover : reads.

Lemma reads_only_printArg (arg : any) (verb : ascii) :
  reads_only (fmt.printArg arg verb).
Proof. unfold fmt.printArg. reads_only_tac. Qed.

#[local] Hint Resolve reads_only_printArg : reads.

Lemma reads_only_extraArgs (a : list any) : reads_only (fmt.extraArgs a).
Proof.
  induction a as [|arg a IH]; simpl; [auto with reads|].
  unfold fmt.extraArg. reads_only_tac.
Qed.

#[local] Hint Resolve reads_only_extraArgs : reads.

Lemma reads_only_extra (a : list any) (n : nat) : reads_only (fmt.extra a n).
Proof. unfold fmt.extra. reads_only_tac. Qed.

#[local] Hint Resolve reads_only_extra : reads.

Lemma doPrintf_step (c1 c2 : ascii) (s : string) (a : list any) (n : nat)
    (L : list nat) :
  fmt.doPrintf (String c1 (String c2 s)) a n L
  = if Ascii.eqb c1 "%" then
      if Ascii.eqb c2 "%" then
        let* r := fmt.doPrintf s a n L in ret (String "%" r.1, r.2)
      else if fmt.is_verb c2 then
        match a !! n with
        | None =>
            let* r := fmt.doPrintf s a n L in
            ret ("%!" +:+ String c2 "(MISSING)" +:+ r.1, r.2)
        | Some arg =>
            let* t := fmt.printArg arg c2 in
            let* r := fmt.doPrintf s a (S n)
                        (if Ascii.eqb c2 "w" then (L ++ [n])%list else L) in
            ret (t +:+ r.1, r.2)
        end
      else fmt.beyond
    else
      let* r := fmt.doPrintf (String c2 s) a n L in
      ret (String c1 r.1, r.2).
Proof. reflexivity. Qed.

Lemma reads_only_doPrintf (format : string) :
  forall a n L, reads_only (fmt.doPrintf format a n L).
Proof.
  induction format as [| c | c1 c2 s IH1 IH2] using string_ind2; intros a n L.
  - simpl. reads_only_tac.
  - simpl. reads_only_tac.
  - rewrite doPrintf_step. reads_only_tac; auto.
Qed.

#[local] Hint Resolve reads_only_doPrintf : reads.

Lemma reads_only_Errorf (format : string) (a : list any) :
  reads_only (fmt.Errorf format a).
Proof. unfold fmt.Errorf. reads_only_tac. Qed.

Lemma bind_Some {A B} (m : M A) (k : A -> M B) (h : heap) (r : B * heap) :
  bind m k h = Some r <-> exists x h1, m h = Some (x, h1) /\ k x h1 = Some r.
Proof.
  unfold bind. split.
  - destruct (m h) as [[x h1]|]; [|done]. intros Hk. by exists x, h1.
  - intros (x & h1 & -> & Hk). done.
Qed.

Ltac inv_bind H :=
  let x := fresh "x" in
  let h1 := fresh "h" in
  let Hm := fresh "Hm" in
  apply bind_Some in H as (x & h1 & Hm & H).

Lemma verbs_step (c1 c2 : ascii) (s : string) :
  verbs (String c1 (String c2 s))
  = if Ascii.eqb c1 "%" then
      if Ascii.eqb c2 "%" then verbs s else c2 :: verbs s
    else verbs (String c2 s).
Proof. reflexivity. Qed.

Lemma wrap_list_None (vs : list ascii) (a : list any) (n : nat) :
  a !! n = None -> wrap_list vs a n = [].
Proof. intros Hn. destruct vs; simpl; [done|]. by rewrite Hn. Qed.

(** The operands formatting records for wrapping are those of the wrap
    verbs that have one, in the order of the verbs. *)
Lemma doPrintf_wrappedErrs (format : string) :
  forall a n L h t L' h',
    fmt.doPrintf format a n L h = Some ((t, L'), h') ->
    L' = (L ++ wrap_list (verbs format) a n)%list.
Proof.
  induction format as [| c | c1 c2 s IH1 IH2] using string_ind2;
    intros a n L h t L' h' Hrun.
  - simpl in Hrun. inv_bind Hrun. injection Hrun as _ <- _.
    by rewrite app_nil_r.
  - simpl in Hrun. simpl. destruct (Ascii.eqb c "%").
    + inv_bind Hrun. injection Hrun as _ <- _. by rewrite app_nil_r.
    + inv_bind Hrun. inv_bind Hm. injection Hm as <- _.
      injection Hrun as _ <- _. by rewrite app_nil_r.
  - rewrite doPrintf_step in Hrun. rewrite verbs_step.
    destruct (Ascii.eqb c1 "%").
    + destruct (Ascii.eqb c2 "%").
      { inv_bind Hrun. injection Hrun as _ <- _. destruct x as [t1 L1].
        eapply IH1; eauto. }
      destruct (fmt.is_verb c2); [|done].
      cbn [wrap_list].
      destruct (a !! n) as [arg|] eqn:Hn.
      * inv_bind Hrun. inv_bind Hrun. injection Hrun as _ <- _.
        destruct x0 as [t1 L1]. cbn [snd].
        rewrite (IH1 _ _ _ _ _ _ _ Hm0).
        destruct (Ascii.eqb c2 "w"); by rewrite <- ?app_assoc.
      * inv_bind Hrun. injection Hrun as _ <- _. destruct x as [t1 L1].
        cbn [snd]. rewrite (IH1 _ _ _ _ _ _ _ Hm).
        by rewrite (wrap_list_None _ _ _ Hn).
    + inv_bind Hrun. injection Hrun as _ <- _. destruct x as [t1 L1].
      eapply IH2; eauto.
Qed.

(** Inside the fragment formatting always gives a text. *)
Lemma printArg_total (arg : any) (verb : ascii) (h : heap) :
  fmt.is_verb verb = true ->
  match arg with
  | any_error _ => negb (Ascii.eqb verb "d")
  | _ => true
  end = true ->
  exists t, fmt.printArg arg verb h = Some (t, h).
Proof.
  intros Hverb Harg. destruct arg as [|z|s|e]; simpl.
  - destruct (fmt.verb_in "Tv" verb); by eexists.
  - destruct (fmt.verb_in "T" verb); [by eexists|].
    destruct (fmt.verb_in "vd" verb); by eexists.
  - destruct (fmt.verb_in "T" verb); [by eexists|].
    destruct (fmt.verb_in "vs" verb); by eexists.
  - destruct (fmt.verb_in "T" verb) eqn:HT; [by eexists|].
    assert (Hvsw : fmt.verb_in "vsw" verb = true).
    { revert Hverb Harg HT. unfold fmt.is_verb, fmt.verb_in. simpl.
      destruct (Ascii.eqb verb "v"), (Ascii.eqb verb "s"), (Ascii.eqb verb "d"),
        (Ascii.eqb verb "w"), (Ascii.eqb verb "T"); simpl; congruence. }
    rewrite Hvsw. unfold fmt.recover.
    destruct (error_Error e h) as [[t h1]|] eqn:Hrun; [|by eexists].
    apply reads_only_error_Error in Hrun as Hh. subst h1. by eexists.
Qed.

Lemma extraArgs_total (a : list any) (h : heap) :
  exists t, fmt.extraArgs a h = Some (t, h).
Proof.
  induction a as [|arg a [t IH]]; simpl; [by eexists|].
  assert (Harg : exists t1, fmt.extraArg arg h = Some (t1, h)).
  { unfold fmt.extraArg.
    destruct arg as [|z|s|e]; [by eexists| | |];
      match goal with
      | |- context [fmt.printArg ?x "v"] =>
          destruct (printArg_total x "v" h eq_refl eq_refl) as [t1 Ht1]
      end; unfold bind; rewrite Ht1; by eexists. }
  destruct Harg as [t1 Ht1]. unfold bind. rewrite Ht1, IH. by eexists.
Qed.

Lemma extra_total (a : list any) (n : nat) (h : heap) :
  exists t, fmt.extra a n h = Some (t, h).
Proof.
  unfold fmt.extra. destruct (drop n a) as [|arg rest]; [by eexists|].
  destruct (extraArgs_total (arg :: rest) h) as [t Ht].
  unfold bind. rewrite Ht. by eexists.
Qed.

Lemma supported_from_ge (vs : list ascii) (a : list any) :
  forall n m, (length a <= n)%nat -> (length a <= m)%nat ->
    supported_from vs a n = supported_from vs a m.
Proof.
  induction vs as [|v vs IH]; intros n m Hn Hm; simpl; [done|].
  rewrite (lookup_ge_None_2 a n Hn), (lookup_ge_None_2 a m Hm).
  f_equal. apply IH; lia.
Qed.

Lemma doPrintf_total (format : string) :
  forall a n L h,
    supported_from (verbs format) a n = true ->
    exists t,
      fmt.doPrintf format a n L h
      = Some ((t, (L ++ wrap_list (verbs format) a n)%list), h).
Proof.
  assert (Hany : forall a n L h,
            supported_from (verbs format) a n = true ->
            exists r, fmt.doPrintf format a n L h = Some (r, h)).
  { induction format as [| c | c1 c2 s IH1 IH2] using string_ind2;
      intros a n L h Hsup.
    - simpl. destruct (extra_total a n h) as [t Ht].
      unfold bind. rewrite Ht. by eexists.
    - simpl. destruct (extra_total a n h) as [t Ht].
      destruct (Ascii.eqb c "%"); unfold bind; rewrite Ht; by eexists.
    - rewrite doPrintf_step. rewrite verbs_step in Hsup.
      destruct (Ascii.eqb c1 "%").
      + destruct (Ascii.eqb c2 "%").
        { destruct (IH1 a n L h Hsup) as [r Hr]. unfold bind. rewrite Hr.
          by eexists. }
        cbn [supported_from] in Hsup.
        apply andb_true_iff in Hsup as [Hsup Hrest].
        apply andb_true_iff in Hsup as [Hverb Harg].
        rewrite Hverb. destruct (a !! n) as [arg|] eqn:Hn.
        * destruct (printArg_total arg c2 h Hverb) as [t Ht].
          { by destruct arg. }
          destruct (IH1 a (S n) (if Ascii.eqb c2 "w" then (L ++ [n])%list else L)
                      h Hrest) as [r Hr].
          unfold bind. rewrite Ht, Hr. by eexists.
        * apply lookup_ge_None in Hn.
          rewrite (supported_from_ge _ a (S n) n) in Hrest by lia.
          destruct (IH1 a n L h Hrest) as [r Hr]. unfold bind. rewrite Hr.
          by eexists.
      + destruct (IH2 a n L h Hsup) as [r Hr]. unfold bind. rewrite Hr.
        by eexists. }
  intros a n L h Hsup. destruct (Hany a n L h Hsup) as [[t L'] Hr].
  exists t. by rewrite Hr, (doPrintf_wrappedErrs _ _ _ _ _ _ _ _ Hr).
Qed.

(** What fmt.Errorf returns around a text, by the operands recorded for
    wrapping. *)
Lemma fmt_Errorf_shape (format : string) (a : list any) (h h' : heap)
    (err : error_val) :
  fmt.Errorf format a h = Some (err, h') ->
  h' = h
  /\ exists msg,
       err = match wrap_list (verbs format) a 0 with
             | [] => errorString msg
             | [i] => wrapError msg (fmt.as_error a i)
             | idxs => wrapErrors msg (omap (fun i => fmt.as_error a i) idxs)
             end.
Proof.
  intros Hrun. split; [by apply reads_only_Errorf in Hrun|].
  unfold fmt.Errorf in Hrun. inv_bind Hrun. destruct x as [t L].
  apply doPrintf_wrappedErrs in Hm. simpl in Hm. subst L. cbn [fst snd] in Hrun.
  exists t. destruct (wrap_list (verbs format) a 0) as [|i [|i' l]];
    by injection Hrun as <- _.
Qed.

Lemma fmt_Errorf_total (format : string) (a : list any) (h : heap) :
  supported format a = true ->
  exists err, fmt.Errorf format a h = Some (err, h).
Proof.
  intros Hsup. destruct (doPrintf_total format a 0 [] h Hsup) as [t Ht].
  unfold fmt.Errorf, bind. rewrite Ht. cbn [fst snd app].
  destruct (wrap_list (verbs format) a 0) as [|i [|i' l]]; by eexists.
Qed.

Lemma fmt_Errorf_plain (format : string) (a : list any) (h h' : heap)
    (err : error_val) :
  fmt.Errorf format a h = Some (err, h') ->
  h' = h /\ implements_HTTPError err = false.
Proof.
  intros Hrun. destruct (fmt_Errorf_shape _ _ _ _ _ Hrun) as [-> [msg ->]].
  split; [done|].
  by destruct (wrap_list (verbs format) a 0) as [|i [|i' l]].
Qed.

(** errors.Unwrap of what fmt.Errorf returns. *)
Lemma fmt_Errorf_Unwrap (format : string) (a : list any) (h h' : heap)
    (err : error_val) :
  fmt.Errorf format a h = Some (err, h') ->
  forall h1, errors.Unwrap (Some err) h1 = Some (wrapped_by format a, h1).
Proof.
  intros Hrun h1. destruct (fmt_Errorf_shape _ _ _ _ _ Hrun) as [_ [msg ->]].
  unfold wrapped_by.
  by destruct (wrap_list (verbs format) a 0) as [|i [|i' l]].
Qed.

Lemma elem_of_wrap_list (vs : list ascii) (a : list any) (j : nat) :
  forall n,
    j ∈ wrap_list vs a n
    <-> exists k, j = (n + k)%nat /\ vs !! k = Some "w"%char /\ (j < length a)%nat.
Proof.
  induction vs as [|v vs IH]; intros n; simpl.
  - split; [by intros ?%elem_of_nil | by intros (k & _ & ? & _)].
  - destruct (a !! n) as [arg|] eqn:Hn.
    + rewrite elem_of_app, IH. split.
      * intros [Hj | (k & -> & Hk & Hlt)].
        -- destruct (Ascii.eqb v "w") eqn:Hv; [|by apply elem_of_nil in Hj].
           apply list_elem_of_singleton in Hj as ->.
           apply Ascii.eqb_eq in Hv as ->.
           exists 0%nat. rewrite Nat.add_0_r. split; [done|]. split; [done|].
           by apply lookup_lt_Some in Hn.
        -- exists (S k). split; [lia|]. done.
      * intros (k & -> & Hk & Hlt). destruct k as [|k].
        -- left. injection Hk as ->. rewrite Nat.add_0_r.
           change (Ascii.eqb "w" "w") with true. by apply list_elem_of_singleton.
        -- right. exists k. split; [lia|]. split; [done|]. lia.
    + split; [by intros ?%elem_of_nil|]. intros (k & -> & _ & Hlt).
      apply lookup_ge_None in Hn. lia.
Qed.

Lemma NoDup_wrap_list (vs : list ascii) (a : list any) :
  forall n, NoDup (wrap_list vs a n).
Proof.
  induction vs as [|v vs IH]; intros n; simpl; [constructor|].
  destruct (a !! n); [|constructor].
  destruct (Ascii.eqb v "w"); simpl; [|apply IH].
  constructor; [|apply IH]. rewrite elem_of_wrap_list. intros (k & ? & _). lia.
Qed.

(** Errorf wraps an error exactly when one wrap verb, and no more, has an
    operand, and that operand is the error. *)
Lemma wrapped_by_Some (fmtstr : string) (args : list any) (e : error_val) :
  wrapped_by fmtstr args = Some e
  <-> exists i,
        (forall j, (verbs fmtstr !! j = Some "w"%char /\ (j < length args)%nat)
                   <-> j = i)
        /\ args !! i = Some (any_error e).
Proof.
  assert (Hmem : forall j,
            j ∈ wrap_list (verbs fmtstr) args 0
            <-> verbs fmtstr !! j = Some "w"%char /\ (j < length args)%nat).
  { intros j. rewrite elem_of_wrap_list. split.
    - by intros (k & -> & ? & ?).
    - intros [? ?]. by exists j. }
  unfold wrapped_by. split.
  - destruct (wrap_list (verbs fmtstr) args 0) as [|i [|i' l]] eqn:Hl; try done.
    intros He. exists i. split.
    + intros j. rewrite <- Hmem. apply list_elem_of_singleton.
    + unfold fmt.as_error in He. destruct (args !! i) as [[| | |e']|]; try done.
      by injection He as ->.
  - intros (i & Huniq & Harg).
    assert (Hl : wrap_list (verbs fmtstr) args 0 = [i]).
    { apply Permutation_singleton_r, NoDup_Permutation.
      - apply NoDup_wrap_list.
      - apply NoDup_singleton.
      - intros j. by rewrite Hmem, Huniq, list_elem_of_singleton. }
    rewrite Hl. unfold fmt.as_error. by rewrite Harg.
Qed.

Lemma doPrintf_literal (pre rest : string) (a : list any) (n : nat)
    (L : list nat) (h : heap) :
  no_percent pre = true ->
  fmt.doPrintf (pre +:+ rest) a n L h
  = match fmt.doPrintf rest a n L h with
    | Some (r, h') => Some ((pre +:+ r.1, r.2), h')
    | None => None
    end.
Proof.
  induction pre as [|c pre IH]; intros Hpre.
  - change ("" +:+ rest) with rest.
    destruct (fmt.doPrintf rest a n L h) as [[[t L'] h']|]; reflexivity.
  - simpl in Hpre. apply andb_true_iff in Hpre as [Hc Hpre].
    apply negb_true_iff in Hc.
    change (String c pre +:+ rest) with (String c (pre +:+ rest)).
    assert (Hstep : fmt.doPrintf (String c (pre +:+ rest)) a n L
                    = (let* r := fmt.doPrintf (pre +:+ rest) a n L in
                       ret (String c r.1, r.2))).
    { simpl. by rewrite Hc. }
    rewrite Hstep. unfold bind. rewrite (IH Hpre).
    by destruct (fmt.doPrintf rest a n L h) as [[[t L'] h']|].
Qed.

Lemma doPrintf_literal_end (post : string) (a : list any) (n : nat)
    (L : list nat) (h : heap) :
  no_percent post = true -> (length a <= n)%nat ->
  fmt.doPrintf post a n L h = Some ((post, L), h).
Proof.
  intros Hpost Hn.
  assert (Hend : fmt.doPrintf "" a n L h = Some (("", L), h)).
  { simpl. unfold bind, fmt.extra. by rewrite drop_ge. }
  assert (Hnil : forall s : string, s +:+ "" = s).
  { clear. induction s as [|c s IH]; [done|].
    change (String c s +:+ "") with (String c (s +:+ "")). by rewrite IH. }
  pose proof (doPrintf_literal post "" a n L h Hpost) as Hlit.
  rewrite Hnil in Hlit. rewrite Hlit, Hend. cbn [fst snd]. by rewrite Hnil.
Qed.

(** The usual call: text, one wrap verb, text, and the error to wrap. *)
Lemma fmt_Errorf_simple_wrap (pre post : string) (e : error_val) (m : string)
    (h : heap) :
  no_percent pre = true -> no_percent post = true ->
  eval (error_Error e) h = Some m ->
  fmt.Errorf (pre +:+ "%w" +:+ post) [any_error e] h
  = Some (wrapError (pre +:+ m +:+ post) (Some e), h).
Proof.
  intros Hpre Hpost Hm.
  assert (He : error_Error e h = Some (m, h)).
  { unfold eval in Hm. destruct (error_Error e h) as [[m' h']|] eqn:Hrun; [|done].
    injection Hm as ->. by apply reads_only_error_Error in Hrun as Hh; subst. }
  unfold fmt.Errorf, bind. rewrite doPrintf_literal by done.
  change ("%w" +:+ post) with (String "%" (String "w" post)).
  rewrite doPrintf_step. simpl. unfold bind, fmt.recover. simpl.
  rewrite He. rewrite doPrintf_literal_end by (simpl; done || lia).
  reflexivity.
Qed.

(** A format without directives and without operands is its own message. *)
Lemma fmt_Errorf_literal (msg : string) (h : heap) :
  no_percent msg = true ->
  fmt.Errorf msg [] h = Some (errorString msg, h).
Proof.
  intros Hmsg. unfold fmt.Errorf, bind.
  rewrite doPrintf_literal_end by (simpl; done || lia). reflexivity.
Qed.

Lemma PD_Errorf_run (h : heap) (p : loc) (pd : ProblemDetails)
    (fmtstr : string) (args : list any) (err : error_val) :
  problems h !! p = Some pd ->
  eval (fmt.Errorf fmtstr args) h = Some err ->
  exists msg cause,
    eval (error_Error err) h = Some msg
    /\ eval (errors.Unwrap (Some err)) h = Some cause
    /\ PD.Errorf p fmtstr args h
       = Some (p, mkHeap (<[p := mkProblemDetails (Status pd) (Title pd) msg
                                  (Type_ pd) (Instance_ pd) cause]> (problems h))
                         (validations h)).
Proof.
  intros Hp Herr. unfold eval in Herr.
  destruct (fmt.Errorf fmtstr args h) as [[err' h']|] eqn:Hrun; [|done].
  injection Herr as ->.
  destruct (fmt_Errorf_plain _ _ _ _ _ Hrun) as [-> Hplain].
  assert (Hshape : exists msg cause,
             (forall h1, error_Error err h1 = Some (msg, h1))
             /\ (forall h1, errors.Unwrap (Some err) h1 = Some (cause, h1))).
  { destruct err as [s|m e|m es|q|q]; try discriminate.
    - by exists s, None.
    - by exists m, e.
    - by exists m, None. }
  destruct Hshape as (msg & cause & Hmsg & Hcause).
  exists msg, cause. unfold eval. rewrite Hmsg, Hcause.
  split; [done|]. split; [done|].
  unfold PD.Errorf, bind. rewrite Hrun, Hcause.
  rewrite (modify_ProblemDetails_Some _ _ _ _ Hp), Hmsg.
  erewrite modify_ProblemDetails_Some by apply lookup_insert_eq.
  unfold ret. simpl. by rewrite insert_insert_eq.
Qed.




(** On an object that wraps nothing, Errorf with plain text is WithDetail
    (the tests build their problems this way). *)
Lemma Errorf_plain_text (h : heap) (p : loc) (pd : ProblemDetails) (msg : string) :
  problems h !! p = Some pd -> wrappedError pd = None ->
  no_percent msg = true ->
  PD.Errorf p msg [] h = PD.WithDetail p msg h.
Proof.
  intros Hp Hnone Hmsg.
  destruct (PD_Errorf_run h p pd msg [] (errorString msg) Hp)
    as (msg' & cause & Hm & Hcause & Hrun).
  { unfold eval. by rewrite fmt_Errorf_literal. }
  unfold eval in Hm, Hcause. simpl in Hm, Hcause.
  injection Hm as <-. injection Hcause as <-.
  rewrite Hrun. unfold PD.WithDetail, bind.
  rewrite (modify_ProblemDetails_Some _ _ _ _ Hp). unfold ret, set_Detail.
  by rewrite Hnone.
Qed.

Example Errorf_readme :
  eval (let* p := Errorf 400 "can't parse ID: %w" [any_error (errors.New "bad id")] in
        load_ProblemDetails p) empty_heap
  = Some (mkProblemDetails 400 "Bad Request" "can't parse ID: bad id"
            "https://httpstatuses.com/400" "" (Some (errorString "bad id"))).
Proof. vm_compute. reflexivity. Qed.

(** * Further properties of the package *)

(** ** The mutators as a family *)

(** Whatever a mutator does, it does to the detail and the wrapped error of
    its receiver. *)
Lemma mutator_step (p q : loc) (m : mutator) (h h' : heap) (pd : ProblemDetails) :
  problems h !! p = Some pd ->
  run_mutator p m h = Some (q, h') ->
  q = p
  /\ exists d c,
       h' = mkHeap (<[p := mkProblemDetails (Status pd) (Title pd) d
                             (Type_ pd) (Instance_ pd) c]> (problems h))
                   (validations h).
Proof.
  intros Hp Hrun. destruct m as [fmtstr args|msg|err]; simpl in Hrun.
  - unfold PD.Errorf in Hrun. inv_bind Hrun.
    assert (Hfmt : eval (fmt.Errorf fmtstr args) h = Some x)
      by (unfold eval; by rewrite Hm).
    destruct (PD_Errorf_run h p pd fmtstr args x Hp Hfmt)
      as (msg & cause & _ & _ & Hres).
    assert (Hagain : PD.Errorf p fmtstr args h = Some (q, h')).
    { unfold PD.Errorf, bind at 1. by rewrite Hm. }
    rewrite Hres in Hagain. injection Hagain as <- <-. eauto.
  - unfold PD.WithDetail, bind in Hrun.
    rewrite (modify_ProblemDetails_Some _ _ _ _ Hp) in Hrun.
    injection Hrun as <- <-. split; [done|]. by exists msg, (wrappedError pd).
  - unfold PD.WithErr, bind in Hrun.
    rewrite (modify_ProblemDetails_Some _ _ _ _ Hp) in Hrun.
    erewrite load_ProblemDetails_Some in Hrun by apply lookup_insert_eq.
    cbn [Detail set_wrappedError] in Hrun.
    destruct (decide (Detail pd = "")) as [Hd|Hd].
    + destruct (call_Error err _) as [[msg h1]|] eqn:Hmsg; [|done].
      assert (h1 = mkHeap (<[p := set_wrappedError err pd]> (problems h))
                          (validations h)) as ->.
      { destruct err as [e|]; [|done]. simpl in Hmsg.
        by apply reads_only_error_Error in Hmsg. }
      erewrite modify_ProblemDetails_Some in Hrun by apply lookup_insert_eq.
      injection Hrun as <- <-. split; [done|]. exists msg, err.
      cbn. by rewrite insert_insert_eq.
    + injection Hrun as <- <-. split; [done|]. by exists (Detail pd), err.
Qed.

(** X1: WithDetail(msg) on a ProblemDetails sets the detail to msg as it is,
    whatever the text holds and whatever the detail was, keeps the status,
    the title, the type, the instance and the wrapped error, returns the
    receiver and changes no other object. *)
Theorem WithDetail_sets_detail (h : heap) (p : loc) (pd : ProblemDetails)
    (msg : string) :
  problems h !! p = Some pd ->
  exists h',
    PD.WithDetail p msg h = Some (p, h')
    /\ problems h' !! p
       = Some (mkProblemDetails (Status pd) (Title pd) msg (Type_ pd)
                 (Instance_ pd) (wrappedError pd))
    /\ (forall q, q <> p -> problems h' !! q = problems h !! q)
    /\ validations h' = validations h.
Proof.
  intros Hp. eexists. split.
  - unfold PD.WithDetail, bind.
    by rewrite (modify_ProblemDetails_Some _ _ _ _ Hp).
  - simpl. split; [apply lookup_insert_eq|]. split; [|done].
    intros q Hq. by apply lookup_insert_ne.
Qed.

Lemma WithDetail_sets_detail_witness :
  exists h',
    PD.WithDetail 1%positive "100% of the quota is used"
      (mkHeap {[ 1%positive := New_literal 507 ]} ∅) = Some (1%positive, h')
    /\ problems h' !! 1%positive
       = Some (mkProblemDetails 507 "Insufficient Storage"
                 "100% of the quota is used" "https://httpstatuses.com/507" "" None).
Proof.
  destruct (WithDetail_sets_detail (mkHeap {[ 1%positive := New_literal 507 ]} ∅)
              1%positive (New_literal 507) "100% of the quota is used")
    as (h' & Hrun & Hobj & _).
  - vm_compute. reflexivity.
  - exists h'. split; [exact Hrun|].
    refine (eq_trans Hobj _). vm_compute. reflexivity.
Defined.

(** X2: a chain of calls of Errorf, WithDetail and WithErr that runs to its
    end returns the pointer it started from and leaves the status, the
    title, the type and the instance of the object as they were (so
    GetStatus and Error answer as before); only the detail and the wrapped
    error can differ, and no other object changes. *)
Theorem chain_keeps_identity (ms : list mutator) :
  forall (h h' : heap) (p q : loc) (pd : ProblemDetails),
    problems h !! p = Some pd ->
    chain p ms h = Some (q, h') ->
    q = p
    /\ (exists pd',
          problems h' !! p = Some pd'
          /\ GetStatus pd' = GetStatus pd /\ Error pd' = Error pd
          /\ Type_ pd' = Type_ pd /\ Instance_ pd' = Instance_ pd)
    /\ (forall r, r <> p -> problems h' !! r = problems h !! r)
    /\ validations h' = validations h.
Proof.
  induction ms as [|m ms IH]; intros h h' p q pd Hp Hrun.
  - injection Hrun as <- <-. split; [done|]. split; [|done]. by exists pd.
  - simpl in Hrun. inv_bind Hrun.
    destruct (mutator_step _ _ _ _ _ _ Hp Hm) as (-> & d & c & ->).
    destruct (IH _ _ _ _ _ (lookup_insert_eq _ _ _) Hrun)
      as (-> & (pd' & Hp' & Hs & He & Ht & Hi) & Hframe & Hv).
    split; [done|]. split; [by exists pd'|]. split; [|done].
    intros r Hr. rewrite (Hframe r Hr). simpl. by apply lookup_insert_ne.
Qed.

Lemma chain_keeps_identity_witness :
  match chain 1%positive
          [call_WithErr (Some (errors.New "row not found"));
           call_Errorf "lookup failed: %w" [any_error (errors.New "timeout")];
           call_WithDetail "No such page"]
          (mkHeap {[ 1%positive := New_literal 404 ]} ∅) with
  | Some (q, h') =>
      q = 1%positive
      /\ exists pd', problems h' !! 1%positive = Some pd'
                     /\ GetStatus pd' = 404 /\ Error pd' = "Not Found"
  | None => False
  end.
Proof.
  set (h0 := mkHeap {[ 1%positive := New_literal 404 ]} ∅).
  set (ms := [call_WithErr (Some (errors.New "row not found"));
              call_Errorf "lookup failed: %w" [any_error (errors.New "timeout")];
              call_WithDetail "No such page"]).
  assert (Hp : problems h0 !! 1%positive = Some (New_literal 404))
    by (vm_compute; reflexivity).
  destruct (chain 1%positive ms h0) as [[q h']|] eqn:Hrun;
    [|vm_compute in Hrun; discriminate].
  destruct (chain_keeps_identity ms h0 h' 1%positive q (New_literal 404) Hp Hrun)
    as (Hq & (pd' & Hp' & Hs & He & _) & _).
  split; [exact Hq|]. exists pd'. split; [exact Hp'|]. split.
  - rewrite Hs. reflexivity.
  - rewrite He. vm_compute. reflexivity.
Defined.

(** X3: with a detail text that is not empty, WithDetail and WithErr can be
    called in either order: both chains end with the text as detail and the
    error as wrapped error. (With the empty text the order shows: WithErr
    called last fills the detail from the error.) *)
Theorem WithDetail_WithErr_commute (h : heap) (p : loc) (pd : ProblemDetails)
    (m : string) (e : error_val) (msg : string) :
  problems h !! p = Some pd ->
  m <> "" ->
  eval (error_Error e) h = Some msg ->
  chain p [call_WithDetail m; call_WithErr (Some e)] h
  = chain p [call_WithErr (Some e); call_WithDetail m] h
  /\ chain p [call_WithDetail m; call_WithErr (Some e)] h
     = Some (p, mkHeap (<[p := mkProblemDetails (Status pd) (Title pd) m
                                (Type_ pd) (Instance_ pd) (Some e)]> (problems h))
                       (validations h)).
Proof.
  intros Hp Hm Hmsg.
  assert (Hleft : chain p [call_WithDetail m; call_WithErr (Some e)] h
                  = Some (p, mkHeap (<[p := mkProblemDetails (Status pd) (Title pd) m
                                (Type_ pd) (Instance_ pd) (Some e)]> (problems h))
                       (validations h))).
  { simpl. unfold bind at 1. unfold PD.WithDetail, bind at 1.
    rewrite (modify_ProblemDetails_Some _ _ _ _ Hp). unfold ret at 1.
    unfold bind.
    rewrite (WithErr_run _ p (set_Detail m pd) (Some e) msg).
    - cbn [Detail set_Detail Status Title Type_ Instance_ problems validations].
      rewrite decide_False by done. unfold ret. by rewrite insert_insert_eq.
    - apply lookup_insert_eq.
    - intros Hd. simpl in Hd. contradiction. }
  split; [|exact Hleft]. rewrite Hleft.
  simpl. unfold bind at 1.
  rewrite (WithErr_run h p pd (Some e) msg Hp) by eauto.
  unfold bind, PD.WithDetail, bind.
  erewrite modify_ProblemDetails_Some by apply lookup_insert_eq.
  unfold ret. cbn. by rewrite insert_insert_eq.
Qed.

Lemma WithDetail_WithErr_commute_witness :
  chain 1%positive [call_WithDetail "No such page";
                    call_WithErr (Some (errors.New "row not found"))]
    (mkHeap {[ 1%positive := New_literal 404 ]} ∅)
  = chain 1%positive [call_WithErr (Some (errors.New "row not found"));
                      call_WithDetail "No such page"]
      (mkHeap {[ 1%positive := New_literal 404 ]} ∅).
Proof.
  apply (WithDetail_WithErr_commute (mkHeap {[ 1%positive := New_literal 404 ]} ∅)
           1%positive (New_literal 404) "No such page"
           (errors.New "row not found") "row not found").
  - vm_compute. reflexivity.
  - discriminate.
  - reflexivity.
Defined.

Example WithDetail_empty_then_WithErr :
  eval (let* p := New 404 in
        let* p := chain p [call_WithDetail "";
                           call_WithErr (Some (errors.New "row not found"))] in
        load_ProblemDetails p) empty_heap
  <> eval (let* p := New 404 in
           let* p := chain p [call_WithErr (Some (errors.New "row not found"));
                              call_WithDetail ""] in
           load_ProblemDetails p) empty_heap.
Proof. vm_compute. discriminate. Qed.

(** ** What Errorf wraps *)

(** Inside the fragment Errorf returns: the detail is the message of the
    error fmt.Errorf builds and the wrapped error what errors.Unwrap gives
    for it. *)
Lemma PD_Errorf_supported (h : heap) (p : loc) (pd : ProblemDetails)
    (fmtstr : string) (args : list any) :
  problems h !! p = Some pd ->
  supported fmtstr args = true ->
  exists msg,
    PD.Errorf p fmtstr args h
    = Some (p, mkHeap (<[p := mkProblemDetails (Status pd) (Title pd) msg
                               (Type_ pd) (Instance_ pd)
                               (wrapped_by fmtstr args)]> (problems h))
                      (validations h)).
Proof.
  intros Hp Hsup.
  destruct (fmt_Errorf_total fmtstr args h Hsup) as [err Hfmt].
  destruct (PD_Errorf_run h p pd fmtstr args err Hp)
    as (msg & cause & _ & Hcause & Hrun).
  { unfold eval. by rewrite Hfmt. }
  unfold eval in Hcause.
  rewrite (fmt_Errorf_Unwrap _ _ _ _ _ Hfmt) in Hcause.
  injection Hcause as <-. by exists msg.
Qed.

(** X4: for a format whose directives are the bare verbs v, s, d, w, T and
    the doubled percent sign (no d verb on an error operand), Errorf
    returns, and the wrapped error of the object is then e exactly when one
    wrap verb of the format, and no more than one, has an operand, and that
    operand is the error e. In every other case the object wraps nothing,
    whatever it wrapped before the call: when no wrap verb has an operand,
    when the operand of the wrap verb is not an error, and when two wrap
    verbs have operands, errors or not. *)
Theorem Errorf_cause_iff (h : heap) (p : loc) (pd : ProblemDetails)
    (fmtstr : string) (args : list any) :
  problems h !! p = Some pd ->
  supported fmtstr args = true ->
  exists h' pd',
    PD.Errorf p fmtstr args h = Some (p, h')
    /\ problems h' !! p = Some pd'
    /\ (forall e,
          wrappedError pd' = Some e
          <-> exists i,
                (forall j, (verbs fmtstr !! j = Some "w"%char
                            /\ (j < length args)%nat) <-> j = i)
                /\ args !! i = Some (any_error e))
    /\ ((forall i, verbs fmtstr !! i = Some "w"%char -> (length args <= i)%nat) ->
        wrappedError pd' = None)
    /\ (forall i, verbs fmtstr !! i = Some "w"%char -> (i < length args)%nat ->
                  (forall e, args !! i <> Some (any_error e)) ->
                  wrappedError pd' = None)
    /\ (forall i i', i <> i' ->
          verbs fmtstr !! i = Some "w"%char -> (i < length args)%nat ->
          verbs fmtstr !! i' = Some "w"%char -> (i' < length args)%nat ->
          wrappedError pd' = None).
Proof.
  intros Hp Hsup.
  destruct (PD_Errorf_supported h p pd fmtstr args Hp Hsup) as (msg & Hrun).
  eexists _, _. split; [exact Hrun|].
  split; [apply lookup_insert_eq|]. cbn [wrappedError].
  pose proof (wrapped_by_Some fmtstr args) as Hiff.
  split; [exact Hiff|]. split; [|split].
  - intros Hno. destruct (wrapped_by fmtstr args) as [e|]; [|done].
    destruct (proj1 (Hiff e) eq_refl) as (i & Huniq & _).
    destruct (proj2 (Huniq i) eq_refl) as [Hv Hlt].
    specialize (Hno i Hv). lia.
  - intros i Hv Hlt Hnot. destruct (wrapped_by fmtstr args) as [e|]; [|done].
    destruct (proj1 (Hiff e) eq_refl) as (i0 & Huniq & Harg).
    assert (i = i0) as -> by (by apply Huniq). by destruct (Hnot e).
  - intros i i' Hne Hv Hlt Hv' Hlt'.
    destruct (wrapped_by fmtstr args) as [e|]; [|done].
    destruct (proj1 (Hiff e) eq_refl) as (i0 & Huniq & _).
    assert (i = i0) by (by apply Huniq).
    assert (i' = i0) by (by apply Huniq). congruence.
Qed.

Lemma Errorf_cause_iff_witness :
  exists h' pd',
    PD.Errorf 1%positive "id %d is not valid" [any_int 7]
      (mkHeap {[ 1%positive :=
                   mkProblemDetails 400 "Bad Request" "first"
                     "https://httpstatuses.com/400" ""
                     (Some (errorString "first")) ]} ∅) = Some (1%positive, h')
    /\ problems h' !! 1%positive = Some pd' /\ wrappedError pd' = None.
Proof.
  set (pd0 := mkProblemDetails 400 "Bad Request" "first"
                "https://httpstatuses.com/400" "" (Some (errorString "first"))).
  set (h0 := mkHeap {[ 1%positive := pd0 ]} ∅).
  destruct (Errorf_cause_iff h0 1%positive pd0 "id %d is not valid" [any_int 7])
    as (h' & pd' & Hrun & Hp' & _ & Hnone & _).
  - vm_compute. reflexivity.
  - vm_compute. reflexivity.
  - exists h', pd'. split; [exact Hrun|]. split; [exact Hp'|]. apply Hnone.
    intros i Hv. vm_compute in Hv. destruct i as [|i]; discriminate.
Defined.

(** Two wrap verbs, two errors: the detail names both and nothing is
    wrapped. *)
Example Errorf_wraps_neither_of_two :
  eval (let* p := New 500 in
        let* p := PD.Errorf p "%w and %w"
                    [any_error (errors.New "a"); any_error (errors.New "b")] in
        load_ProblemDetails p) empty_heap
  = Some (mkProblemDetails 500 "Internal Server Error" "a and b"
            "https://httpstatuses.com/500" "" None).
Proof. vm_compute. reflexivity. Qed.

(** X5: on an object that wraps nothing, Errorf with a text without percent
    sign and no operand does what WithDetail does with that text (the tests
    build their problems this way). *)
Theorem Errorf_text_is_WithDetail (h : heap) (p : loc) (pd : ProblemDetails)
    (msg : string) :
  problems h !! p = Some pd ->
  wrappedError pd = None ->
  no_percent msg = true ->
  PD.Errorf p msg [] h = PD.WithDetail p msg h
  /\ exists h', PD.WithDetail p msg h = Some (p, h')
                /\ problems h' !! p = Some (set_Detail msg pd).
Proof.
  intros Hp Hnone Hmsg. split; [by apply (Errorf_plain_text h p pd)|].
  unfold PD.WithDetail, bind. rewrite (modify_ProblemDetails_Some _ _ _ _ Hp).
  eexists. split; [reflexivity|]. apply lookup_insert_eq.
Qed.

Lemma Errorf_text_is_WithDetail_witness :
  PD.Errorf 1%positive "No such page" []
    (mkHeap {[ 1%positive := New_literal 404 ]} ∅)
  = PD.WithDetail 1%positive "No such page"
      (mkHeap {[ 1%positive := New_literal 404 ]} ∅).
Proof.
  apply (Errorf_text_is_WithDetail (mkHeap {[ 1%positive := New_literal 404 ]} ∅)
           1%positive (New_literal 404) "No such page").
  - vm_compute. reflexivity.
  - reflexivity.
  - reflexivity.
Defined.

(** ** The shortcut functions *)

(** The message of an error value is the same in a heap that has all the
    objects of another, unchanged. *)
Lemma error_Error_mono (e : error_val) (h h' : heap) (msg : string) :
  (forall q pd, problems h !! q = Some pd -> problems h' !! q = Some pd) ->
  (forall q vp, validations h !! q = Some vp -> validations h' !! q = Some vp) ->
  eval (error_Error e) h = Some msg ->
  error_Error e h' = Some (msg, h').
Proof.
  intros Hpd Hvp. unfold eval.
  destruct e as [s|m e|m es|p|p]; simpl; unfold bind, ret.
  - by intros [= ->].
  - by intros [= ->].
  - by intros [= ->].
  - unfold load_ProblemDetails.
    destruct (problems h !! p) as [pd|] eqn:Hp; [|done].
    rewrite (Hpd _ _ Hp). by intros [= <-].
  - unfold load_ValidationProblem.
    destruct (validations h !! p) as [vp|] eqn:Hp; [|done].
    rewrite (Hvp _ _ Hp). by intros [= <-].
Qed.

(** X6: the function Errorf(status, fmtstr, args...) with a format made of
    text around one wrap verb and the error e as operand returns a pointer
    to a fresh object that has the status, the catalog title and the type
    New gives, the text with the message of e in place of the verb as
    detail, and e as wrapped error; the objects that were there stay as
    they are. *)
Theorem Errorf_function_builds_problem (h : heap) (status : Z)
    (pre post : string) (e : error_val) (m : string) :
  no_percent pre = true -> no_percent post = true ->
  eval (error_Error e) h = Some m ->
  exists p,
    problems h !! p = None
    /\ Errorf status (pre +:+ "%w" +:+ post) [any_error e] h
       = Some (p, mkHeap
                    (<[p := mkProblemDetails status (map_index typeForStatus status)
                              (pre +:+ m +:+ post)
                              ("https://httpstatuses.com/" +:+ strconv.Itoa status)
                              "" (Some e)]> (problems h))
                    (validations h)).
Proof.
  intros Hpre Hpost Hm.
  destruct (alloc_ProblemDetails_spec (New_literal status) h) as (p & Halloc & Hfresh).
  exists p. split; [done|].
  unfold Errorf, bind, New. rewrite Halloc. set (h1 := mkHeap _ _).
  assert (Hm1 : eval (error_Error e) h1 = Some m).
  { unfold eval. rewrite (error_Error_mono e h h1 m); try done.
    intros q pd Hq. unfold h1. simpl. rewrite lookup_insert_ne; [done|].
    intros <-. congruence. }
  destruct (PD_Errorf_run h1 p (New_literal status) (pre +:+ "%w" +:+ post)
              [any_error e] (wrapError (pre +:+ m +:+ post) (Some e)))
    as (msg & cause & Hmsg & Hcause & Hrun).
  - apply lookup_insert_eq.
  - unfold eval. by rewrite (fmt_Errorf_simple_wrap pre post e m h1).
  - unfold eval in Hmsg, Hcause. simpl in Hmsg, Hcause.
    injection Hmsg as <-. injection Hcause as <-.
    rewrite Hrun. unfold h1. cbn. by rewrite insert_insert_eq.
Qed.

Lemma Errorf_function_builds_problem_witness :
  exists p h',
    Errorf 400 ("can't parse ID: " +:+ "%w" +:+ "") [any_error (errors.New "bad id")]
      empty_heap = Some (p, h')
    /\ problems h' !! p
       = Some (mkProblemDetails 400 "Bad Request" "can't parse ID: bad id"
                 "https://httpstatuses.com/400" "" (Some (errorString "bad id"))).
Proof.
  destruct (Errorf_function_builds_problem empty_heap 400 "can't parse ID: " ""
              (errors.New "bad id") "bad id") as (p & _ & Hrun);
    [reflexivity | reflexivity | reflexivity |].
  eexists p, _. split; [exact Hrun|].
  cbn [problems]. rewrite lookup_insert_eq. vm_compute. reflexivity.
Defined.

(** The problem the codec gives back for one made by New and WithDetail:
    only the detail can hold bytes that are not UTF-8. *)
Lemma coerce_New_literal (status : Z) (detail : string) :
  coerce_ProblemDetails (set_Detail detail (New_literal status))
  = set_Detail (json.coerce detail) (New_literal status).
Proof.
  unfold coerce_ProblemDetails, set_Detail.
  cbn [Status Title Detail Type_ Instance_ wrappedError].
  rewrite coerce_Type_New_literal.
  replace (json.coerce (Title (New_literal status)))
    with (Title (New_literal status)); [reflexivity|].
  cbn [Title New_literal]. unfold map_index.
  destruct (typeForStatus !! status) as [t|] eqn:Ht; [|reflexivity].
  cbn [default]. change (id t) with t. symmetry. apply coerce_ascii.
  by apply (catalog_titles_ascii status).
Qed.

(** X7: Error(w, msg, status) on a sink that accepts the write adds one
    response with the given status whose body decodes to the problem
    New(status).WithDetail(t), where t is the text of msg, bytes that are
    not UTF-8 replaced by U+FFFD: exactly New(status).WithDetail(msg) when
    msg is valid UTF-8. It returns nil and leaves one fresh object in the
    heap; on a sink whose Write fails it returns the error of the sink. *)
Theorem Error_function_writes_problem (w : ResponseWriter) (h : heap)
    (msg : string) (status : Z) :
  exists p r,
    problems h !! p = None
    /\ problem.Error w msg status h
       = Some (r, mkHeap (<[p := set_Detail msg (New_literal status)]> (problems h))
                         (validations h))
    /\ r.2 = write_error w
    /\ (write_error w = None ->
        calls r.1
        = (calls w ++ one_response status
                        (Marshal (set_Detail msg (New_literal status))))%list
        /\ Unmarshal_ProblemDetails
             (Marshal (set_Detail msg (New_literal status))) zero_ProblemDetails
           = Some (set_Detail (json.coerce msg) (New_literal status))
        /\ (utf8.ValidString msg = true ->
            Unmarshal_ProblemDetails
              (Marshal (set_Detail msg (New_literal status))) zero_ProblemDetails
            = Some (set_Detail msg (New_literal status)))).
Proof.
  destruct (alloc_ProblemDetails_spec (New_literal status) h) as (p & Halloc & Hfresh).
  exists p, (rawWrite w (set_Detail msg (New_literal status))).
  split; [done|]. split.
  - unfold problem.Error, bind, New. rewrite Halloc.
    unfold PD.WithDetail, bind.
    erewrite modify_ProblemDetails_Some by apply lookup_insert_eq.
    unfold ret. erewrite PD_Write_run by apply lookup_insert_eq.
    cbn. by rewrite insert_insert_eq.
  - destruct (write_error w) as [e|] eqn:Hw.
    + rewrite (rawWrite_failing _ _ e) by done. split; [done|]. discriminate.
    + rewrite rawWrite_working by done. split; [done|]. intros _.
      split; [reflexivity|].
      rewrite Unmarshal_Marshal_ProblemDetails, coerce_New_literal.
      split; [reflexivity|]. intros Hmsg. by rewrite (coerce_valid msg Hmsg).
Qed.

Example Error_function_503 :
  eval (problem.Error working_sink "Try again later" 503) empty_heap
  = Some (mkResponseWriter
            (one_response 503
               (JObject [("status", JNumber 503);
                         ("title", JString "Service Unavailable");
                         ("detail", JString "Try again later");
                         ("type", JString "https://httpstatuses.com/503")]))
            None, None).
Proof. vm_compute. reflexivity. Qed.

Lemma Error_function_writes_problem_witness :
  exists p r h',
    problem.Error working_sink "Try again later" 503 empty_heap = Some (r, h')
    /\ problems empty_heap !! p = None
    /\ calls r.1
       = one_response 503 (Marshal (set_Detail "Try again later" (New_literal 503))).
Proof.
  destruct (Error_function_writes_problem working_sink empty_heap
              "Try again later" 503) as (p & r & Hfresh & Hrun & _ & Hok).
  exists p, r. eexists. split; [exact Hrun|]. split; [exact Hfresh|].
  apply (Hok eq_refl).
Defined.

(** ** Sinks that fail and pointers that are nil *)

Lemma rawWrite_reports_sink_state {A} `{HTTPError A} `{Marshaler A}
    (w : ResponseWriter) (obj : A) :
  write_error (rawWrite w obj).1 = write_error w.
Proof.
  destruct (write_error w) as [e|] eqn:Hw.
  - by rewrite (rawWrite_failing _ _ e).
  - by rewrite rawWrite_working.
Qed.

Lemma rawWrite_result_sink {A} `{HTTPError A} `{Marshaler A}
    (w : ResponseWriter) (obj : A) :
  (rawWrite w obj).2 = write_error w.
Proof.
  destruct (write_error w) as [e|] eqn:Hw.
  - by rewrite (rawWrite_failing _ _ e).
  - by rewrite rawWrite_working.
Qed.





(** X10: a pointer to a ProblemDetails that points to no object (a nil
    pointer) makes every operation that goes through it panic: the three
    mutators, the method Write, and also Write and MustWrite when the error
    they are given holds such a pointer, although that error is not nil. *)
Theorem nil_pointer_panics (h : heap) (p : loc) :
  problems h !! p = None ->
  (forall msg, PD.WithDetail p msg h = None)
  /\ (forall err, PD.WithErr p err h = None)
  /\ (forall fmtstr args, PD.Errorf p fmtstr args h = None)
  /\ (forall w, PD.Write p w h = None)
  /\ (forall w, Write w (Some (ptr_ProblemDetails p)) h = None)
  /\ (forall w, MustWrite w (Some (ptr_ProblemDetails p)) h = None).
Proof.
  intros Hp.
  assert (Hload : load_ProblemDetails p h = None)
    by (unfold load_ProblemDetails; by rewrite Hp).
  assert (Hmod : forall f, modify_ProblemDetails p f h = None)
    by (intros f; unfold modify_ProblemDetails; by rewrite Hp).
  split; [|split; [|split; [|split; [|split]]]].
  - intros msg. unfold PD.WithDetail, bind. by rewrite Hmod.
  - intros err. unfold PD.WithErr, bind. by rewrite Hmod.
  - intros fmtstr args. unfold PD.Errorf, bind.
    destruct (fmt.Errorf fmtstr args h) as [[err h1]|] eqn:Hfmt; [|done].
    apply reads_only_Errorf in Hfmt as Hh. subst h1.
    destruct (fmt_Errorf_plain _ _ _ _ _ Hfmt) as [_ Hplain].
    destruct err as [s|m e|m es|q|q]; try discriminate; simpl; unfold ret;
      by rewrite Hmod.
  - intros w. unfold PD.Write, bind. by rewrite Hload.
  - intros w. unfold Write, Write_switch, of_error, bind. by rewrite Hload.
  - intros w. unfold MustWrite, Write, Write_switch, of_error, bind.
    by rewrite Hload.
Qed.

Lemma nil_pointer_panics_witness :
  Write working_sink (Some (ptr_ProblemDetails 1%positive)) empty_heap = None
  /\ MustWrite working_sink (Some (ptr_ProblemDetails 1%positive)) empty_heap = None.
Proof.
  destruct (nil_pointer_panics empty_heap 1%positive) as (_ & _ & _ & _ & Hw & Hm).
  - reflexivity.
  - split; [apply Hw | apply Hm].
Defined.

(** ** What writing leaves alone *)

Lemma reads_only_Write (w : ResponseWriter) (err : error) : reads_only (Write w err).
Proof.
  unfold Write, Write_switch, of_error. destruct err as [[s|m e|m es|p|p]|];
    reads_only_tac.
Qed.

(** X11: Write never changes the heap, and MustWrite never changes an
    object that exists: the problem it is given is written as it is, and
    the only thing the escalation of a plain error adds is one fresh
    ProblemDetails. *)
Theorem writing_keeps_objects (w : ResponseWriter) (err : error) (h h' : heap)
    (r : ResponseWriter * error) :
  (Write w err h = Some (r, h') -> h' = h)
  /\ (MustWrite w err h = Some (r, h') ->
      validations h' = validations h
      /\ (forall q pd, problems h !! q = Some pd -> problems h' !! q = Some pd)
      /\ (h' = h
          \/ exists p pd, problems h !! p = None
                          /\ problems h' = <[p := pd]> (problems h))).
Proof.
  split; [apply reads_only_Write|].
  unfold MustWrite. intros Hrun. inv_bind Hrun.
  apply reads_only_Write in Hm as ->.
  destruct (x.2) as [e1|] eqn:He1.
  - inv_bind Hrun. inv_bind Hrun.
    destruct (alloc_ProblemDetails_spec (New_literal http.StatusInternalServerError) h)
      as (p & Halloc & Hfresh).
    unfold New in Hm. rewrite Halloc in Hm. injection Hm as <- <-.
    destruct (mutator_step p x1 (call_WithErr (Some e1)) _ h1
                (New_literal http.StatusInternalServerError)
                (lookup_insert_eq _ _ _) Hm0) as (-> & d & c & ->).
    unfold PD.Write in Hrun. inv_bind Hrun.
    apply reads_only_load_ProblemDetails in Hm as ->. injection Hrun as _ <-.
    cbn [problems validations]. split; [done|]. split.
    + intros q pd Hq.
      rewrite !lookup_insert_ne by (intros <-; congruence). done.
    + right. exists p. eexists. split; [done|]. by rewrite insert_insert_eq.
  - injection Hrun as _ <-. split; [done|]. split; [done|]. by left.
Qed.

Lemma writing_keeps_objects_witness :
  match MustWrite working_sink (Some (errors.New "row not found"))
          (mkHeap {[ 1%positive := New_literal 404 ]} ∅) with
  | Some (r, h') => problems h' !! 1%positive = Some (New_literal 404)
  | None => False
  end.
Proof.
  set (h0 := mkHeap {[ 1%positive := New_literal 404 ]} ∅).
  destruct (MustWrite working_sink (Some (errors.New "row not found")) h0)
    as [[r h']|] eqn:Hrun; [|vm_compute in Hrun; discriminate].
  destruct (writing_keeps_objects working_sink (Some (errors.New "row not found"))
              h0 h' r) as [_ Hkeep].
  destruct (Hkeep Hrun) as (_ & Hobj & _). apply Hobj. vm_compute. reflexivity.
Defined.



(** ** Documents *)

Lemma omitempty_string_coerce (key s : string) :
  omitempty_string key (json.coerce s) = omitempty_string key s.
Proof.
  unfold omitempty_string.
  destruct (decide (s = "")) as [->|Hs]; [reflexivity|].
  rewrite decide_False by (intros Hc; by apply coerce_nonempty in Hc).
  by rewrite coerce_idem.
Qed.

(** X13: decoding the document of a ProblemDetails into a struct gives, for
    the fields that are not at their zero value, the status and the text of
    the strings (bytes that are not UTF-8 replaced by U+FFFD), and leaves
    the other fields, and the wrapped error, as the struct had them. Into
    the zero struct this is the text of the problem without its wrapped
    error, which is never part of the document: the problem itself, without
    its wrapped error, when its strings are valid UTF-8. What comes back has
    the document that was decoded. *)
Theorem Unmarshal_Marshal_merges (pd into : ProblemDetails) :
  Unmarshal_ProblemDetails (Marshal pd) into = Some (merge_ProblemDetails into pd)
  /\ Unmarshal_ProblemDetails (Marshal pd) zero_ProblemDetails
     = Some (coerce_ProblemDetails pd)
  /\ (utf8.ValidString (Title pd) = true -> utf8.ValidString (Detail pd) = true ->
      utf8.ValidString (Type_ pd) = true -> utf8.ValidString (Instance_ pd) = true ->
      Unmarshal_ProblemDetails (Marshal pd) zero_ProblemDetails
      = Some (set_wrappedError None pd))
  /\ Marshal (set_wrappedError None pd) = Marshal pd
  /\ Marshal (coerce_ProblemDetails pd) = Marshal pd.
Proof.
  split; [|split; [apply Unmarshal_Marshal_ProblemDetails|split; [|split]]].
  - destruct pd as [st ti de ty ins we], into as [st' ti' de' ty' ins' we'].
    unfold Marshal, Marshal_ProblemDetails, members_ProblemDetails,
      omitempty_int, omitempty_string, merge_ProblemDetails. simpl.
    destruct (decide (st = 0)), (decide (ti = "")), (decide (de = "")),
      (decide (ty = "")), (decide (ins = ""));
      cbv -[json.coerce]; rewrite ?coerce_idem; reflexivity.
  - intros Hti Hde Hty Hins. rewrite Unmarshal_Marshal_ProblemDetails.
    unfold coerce_ProblemDetails, set_wrappedError.
    by rewrite (coerce_valid _ Hti), (coerce_valid _ Hde), (coerce_valid _ Hty),
      (coerce_valid _ Hins).
  - reflexivity.
  - unfold Marshal, Marshal_ProblemDetails, members_ProblemDetails,
      coerce_ProblemDetails. cbn [Status Title Detail Type_ Instance_].
    by rewrite !omitempty_string_coerce.
Qed.

Lemma Unmarshal_Marshal_merges_witness :
  Unmarshal_ProblemDetails
    (Marshal (mkProblemDetails 404 "Not Found" "No such page"
                "https://httpstatuses.com/404" "" (Some (errorString "row not found"))))
    zero_ProblemDetails
  = Some (mkProblemDetails 404 "Not Found" "No such page"
            "https://httpstatuses.com/404" "" None).
Proof.
  apply (proj1 (proj2 (proj2
           (Unmarshal_Marshal_merges
              (mkProblemDetails 404 "Not Found" "No such page"
                 "https://httpstatuses.com/404" "" (Some (errorString "row not found")))
              zero_ProblemDetails)))); reflexivity.
Defined.

(** A detail that is not valid UTF-8 does not come back as it was. *)
Example Unmarshal_Marshal_invalid_utf8 :
  Unmarshal_ProblemDetails
    (Marshal (mkProblemDetails 0 "" ("caf" +:+ String "233" "") "" "" None))
    zero_ProblemDetails
  = Some (mkProblemDetails 0 "" ("caf" +:+ utf8.RuneError) "" "" None).
Proof. vm_compute. reflexivity. Qed.

Example Unmarshal_keeps_missing_fields :
  Unmarshal_ProblemDetails
    (Marshal (mkProblemDetails 0 "" "disk full" "" "" None))
    (New_literal 507)
  = Some (mkProblemDetails 507 "Insufficient Storage" "disk full"
            "https://httpstatuses.com/507" "" None).
Proof. vm_compute. reflexivity. Qed.

(** ** Field errors *)

Lemma add_all_run (l : list ValidationError) :
  forall (h : heap) (p : loc) (vp : ValidationProblem),
    validations h !! p = Some vp ->
    exists h',
      add_all p l h = Some (tt, h')
      /\ validations h' !! p
         = Some (mkValidationProblem (embedded vp) (ValidationErrors vp ++ l))
      /\ (forall q, q <> p -> validations h' !! q = validations h !! q)
      /\ problems h' = problems h.
Proof.
  induction l as [|ve l IH]; intros h p vp Hp.
  - exists h. split; [reflexivity|]. split; [|done].
    rewrite app_nil_r, Hp. by destruct vp.
  - simpl. unfold bind.
    rewrite (Add_run h p vp (FieldName ve) (Error_ ve) Hp).
    set (h1 := mkHeap _ _).
    destruct (IH h1 p (mkValidationProblem (embedded vp)
                         (ValidationErrors vp ++ [mkValidationError (FieldName ve) (Error_ ve)])))
      as (h' & Hrun & Hobj & Hframe & Hpd); [apply lookup_insert_eq|].
    exists h'. split; [exact Hrun|]. split.
    + rewrite Hobj. cbn. rewrite <- app_assoc. by destruct ve.
    + split; [|by rewrite Hpd].
      intros q Hq. rewrite (Hframe q Hq). unfold h1. simpl.
      by apply lookup_insert_ne.
Qed.



Lemma map_coerce_valid (l : list ValidationError) :
  Forall (fun ve => utf8.ValidString (FieldName ve) = true
                    /\ utf8.ValidString (Error_ ve) = true) l ->
  map coerce_ValidationError l = l.
Proof.
  induction 1 as [|[f r] l [Hf Hr] _ IH]; [reflexivity|].
  cbn [map]. rewrite IH. unfold coerce_ValidationError. simpl in *.
  by rewrite (coerce_valid f Hf), (coerce_valid r Hr).
Qed.

(** X15: a new validation problem with any list of field errors added,
    handed to MustWrite on a sink that accepts the write, gives one response
    with status 400 whose body decodes to status 400, the detail Validation
    error and, in the same order, the text of the names and reasons of the
    field errors (bytes that are not UTF-8 replaced by U+FFFD): the same
    field errors when their names and reasons are valid UTF-8. The
    invalid-params member is left out of the body exactly when no field
    error was added. *)
Theorem ValidationProblem_round_trip (l : list ValidationError) (h : heap) :
  exists w doc,
    eval (add_all_and_write l) h = Some (w, None)
    /\ calls w = one_response 400 doc
    /\ Unmarshal_ValidationProblem doc zero_ValidationProblem
       = Some (mkValidationProblem
                 (mkProblemDetails 400 "" "Validation error" "" "" None)
                 (map coerce_ValidationError l))
    /\ (Forall (fun ve => utf8.ValidString (FieldName ve) = true
                          /\ utf8.ValidString (Error_ ve) = true) l ->
        Unmarshal_ValidationProblem doc zero_ValidationProblem
        = Some (mkValidationProblem
                  (mkProblemDetails 400 "" "Validation error" "" "" None) l))
    /\ (member "invalid-params" doc = None <-> l = []).
Proof.
  destruct (NewValidationProblem_run h) as (p & _ & Hnew).
  set (vp0 := mkValidationProblem
                (mkProblemDetails 400 "" "Validation error" "" "" None) []) in *.
  set (h1 := mkHeap _ _) in Hnew.
  destruct (add_all_run l h1 p vp0) as (h2 & Hadd & Hobj & _);
    [apply lookup_insert_eq|].
  exists (mkResponseWriter
            (one_response 400
               (Marshal (mkValidationProblem (embedded vp0) l))) None),
    (Marshal (mkValidationProblem (embedded vp0) l)).
  split; [|split; [done|split; [|split]]].
  - unfold eval, add_all_and_write, bind. rewrite Hnew, Hadd.
    unfold MustWrite, Write, Write_switch, of_error, bind.
    rewrite (load_ValidationProblem_Some _ _ _ Hobj).
    unfold ret. by rewrite rawWrite_working.
  - apply Unmarshal_Marshal_ValidationProblem.
  - intros Hl. rewrite Unmarshal_Marshal_ValidationProblem.
    cbn [ValidationErrors]. by rewrite (map_coerce_valid l Hl).
  - destruct l as [|ve l]; [done|]. split; discriminate.
Qed.

Lemma ValidationProblem_round_trip_witness :
  exists w doc,
    eval (add_all_and_write []) empty_heap = Some (w, None)
    /\ calls w = one_response 400 doc
    /\ member "invalid-params" doc = None.
Proof.
  destruct (ValidationProblem_round_trip [] empty_heap)
    as (w & doc & Hrun & Hcalls & _ & _ & Hmember).
  exists w, doc. split; [exact Hrun|]. split; [exact Hcalls|].
  apply Hmember. reflexivity.
Defined.

(** ** What New gives outside the catalog *)

(** X16: the catalog covers statuses from 400 to 599 only, and the title New
    gives (which is what Error returns) is empty exactly for the statuses
    it does not cover; so a status below 400 or above 599 always comes with
    an empty title, which the document then leaves out. *)
Theorem New_title_follows_catalog (status : Z) :
  (covered status -> 400 <= status <= 599)
  /\ (Title (New_literal status) <> "" <-> covered status)
  /\ (Error (New_literal status) = "" <->
      member "title" (Marshal (New_literal status)) = None)
  /\ (status < 400 \/ 599 < status -> Error (New_literal status) = "").
Proof.
  assert (Hrange : covered status -> 400 <= status <= 599).
  { intros [t Ht]. apply typeForStatus_lookup in Ht.
    pose proof catalog_keys_in_range as Hall.
    rewrite Forall_forall in Hall. apply (Hall _ Ht). }
  assert (Htitle : Title (New_literal status) <> "" <-> covered status).
  { simpl. unfold map_index, covered.
    destruct (typeForStatus !! status) as [t|] eqn:Ht; simpl.
    - split; [by eexists|]. intros _. by apply (catalog_titles_ascii status).
    - split; [done|]. by intros [t Ht']. }
  split; [exact Hrange|]. split; [exact Htitle|]. split.
  - unfold Error, ProblemDetails_GoError.
    destruct (typeForStatus !! status) as [t|] eqn:Ht.
    + rewrite (member_title_New_literal status t Ht).
      split; [|done]. intros Hempty. exfalso.
      apply (proj2 Htitle); [by exists t | exact Hempty].
    + split; [intros _|intros _].
      * unfold Marshal, Marshal_ProblemDetails, members_ProblemDetails,
          omitempty_int, omitempty_string.
        cbn [Status Title Detail Type_ Instance_ New_literal].
        unfold map_index. rewrite Ht. cbn [default].
        destruct (decide (status = 0)); reflexivity.
      * simpl. unfold map_index. by rewrite Ht.
  - intros Hout. unfold Error, ProblemDetails_GoError.
    destruct (decide (Title (New_literal status) = "")) as [Hd|Hd]; [done|].
    apply Htitle, Hrange in Hd. lia.
Qed.

Lemma New_title_follows_catalog_witness :
  Error (New_literal 302) = "" /\ 400 <= 404 <= 599.
Proof.
  split.
  - apply (proj2 (proj2 (proj2 (New_title_follows_catalog 302)))). lia.
  - apply (proj1 (New_title_follows_catalog 404)). exists "Not Found".
    vm_compute. reflexivity.
Defined.

(** X17: the type New gives is never empty and identifies the status: two
    problems made by New have the same type exactly when they have the same
    status, for all integers and not only for the covered ones; the type is
    always a member of the document. *)
Theorem New_type_identifies_status (s1 s2 : Z) :
  (Type_ (New_literal s1) = Type_ (New_literal s2) <-> s1 = s2)
  /\ Type_ (New_literal s1) <> ""
  /\ member "type" (Marshal (New_literal s1)) = Some (JString (Type_ (New_literal s1))).
Proof.
  split; [|split].
  - split; [apply New_literal_Type_inj | by intros ->].
  - simpl. discriminate.
  - apply member_type_New_literal.
Qed.

Lemma New_type_identifies_status_witness :
  Type_ (New_literal (-1)) <> Type_ (New_literal 1).
Proof.
  intros Heq. apply (proj1 (New_type_identifies_status (-1) 1)) in Heq.
  discriminate.
Defined.

(** ** What the dispatchers return *)

Lemma Write_keeps_sink_state (w : ResponseWriter) (err : error) (h h' : heap)
    (r : ResponseWriter * error) :
  Write w err h = Some (r, h') -> write_error r.1 = write_error w.
Proof.
  destruct err as [[s|msg e|msg es|p|p]|]; unfold Write, Write_switch, of_error, bind, ret.
  - by intros [= <- _].
  - by intros [= <- _].
  - by intros [= <- _].
  - unfold load_ProblemDetails. destruct (problems h !! p) as [pd|]; [|done].
    intros [= <- _]. apply rawWrite_reports_sink_state.
  - unfold load_ValidationProblem. destruct (validations h !! p) as [vp|]; [|done].
    intros [= <- _]. apply rawWrite_reports_sink_state.
  - by intros [= <- _].
Qed.

(** X18: when MustWrite returns, what it returns is the error of the sink's
    Write, nil on a sink that accepts the write: with an err that is not
    nil it never hands err back, unlike Write, which returns a plain error
    to its caller; with a nil err it returns nil. *)
Theorem MustWrite_returns_sink_error (w : ResponseWriter) (err : error)
    (h h' : heap) (r : ResponseWriter * error) :
  MustWrite w err h = Some (r, h') ->
  (err = None -> r = (w, None))
  /\ (err <> None -> r.2 = write_error w)
  /\ write_error r.1 = write_error w.
Proof.
  intros Hrun. split.
  { intros ->. by injection Hrun as <- _. }
  unfold MustWrite in Hrun. inv_bind Hrun.
  pose proof (Write_keeps_sink_state _ _ _ _ _ Hm) as Hsink.
  pose proof (Write_default_unreachable _ _ _ _ _ Hm) as Hcases.
  destruct (x.2) as [e1|] eqn:He1.
  - inv_bind Hrun. inv_bind Hrun. unfold PD.Write in Hrun. inv_bind Hrun.
    injection Hrun as <- _. split.
    + intros _. by rewrite rawWrite_result_sink.
    + by rewrite rawWrite_reports_sink_state.
  - injection Hrun as <- _. simpl. split; [|done].
    intros Hne. destruct Hcases as [_ | [Herr | Hw]]; [|congruence|done].
    destruct err as [[s|msg e|msg es|p|p]|]; try done;
      unfold Write, Write_switch, of_error, bind, ret in Hm.
    + injection Hm as <- _. discriminate.
    + injection Hm as <- _. discriminate.
    + injection Hm as <- _. discriminate.
    + unfold load_ProblemDetails in Hm.
      destruct (problems h !! p) as [pd|]; [|done]. injection Hm as <- _.
      pose proof (rawWrite_result_sink w pd) as Hres. congruence.
    + unfold load_ValidationProblem in Hm.
      destruct (validations h !! p) as [vp|]; [|done]. injection Hm as <- _.
      pose proof (rawWrite_result_sink w vp) as Hres. congruence.
Qed.

Lemma MustWrite_returns_sink_error_witness :
  match MustWrite working_sink (Some (errors.New "row not found")) empty_heap with
  | Some (r, _) => r.2 = None
  | None => False
  end.
Proof.
  destruct (MustWrite working_sink (Some (errors.New "row not found")) empty_heap)
    as [[r h']|] eqn:Hrun; [|vm_compute in Hrun; discriminate].
  destruct (MustWrite_returns_sink_error _ _ _ _ _ Hrun) as (_ & Hres & _).
  apply Hres. discriminate.
Defined.



(** X20: WithErr fills the detail once: on an object with an empty detail,
    WithErr(e1) and then WithErr(e2) leave the message of e1 as detail when
    that message is not empty, and e2 as the wrapped error, so the detail
    and the wrapped error then come from different errors. *)
Theorem WithErr_twice (h : heap) (p : loc) (pd : ProblemDetails)
    (e1 e2 : error_val) (m1 : string) :
  problems h !! p = Some pd ->
  Detail pd = "" ->
  eval (error_Error e1) h = Some m1 ->
  m1 <> "" ->
  chain p [call_WithErr (Some e1); call_WithErr (Some e2)] h
  = Some (p, mkHeap (<[p := mkProblemDetails (Status pd) (Title pd) m1
                             (Type_ pd) (Instance_ pd) (Some e2)]> (problems h))
                    (validations h)).
Proof.
  intros Hp Hd Hm1 Hne. simpl. unfold bind at 1.
  rewrite (WithErr_run h p pd (Some e1) m1 Hp) by eauto.
  rewrite decide_True by done. unfold bind.
  erewrite (WithErr_run _ p _ (Some e2) "") by
    (try apply lookup_insert_eq; cbn; intros ?; contradiction).
  cbn [Detail Status Title Type_ Instance_ problems validations].
  rewrite decide_False by done. unfold ret. by rewrite insert_insert_eq.
Qed.

Lemma WithErr_twice_witness :
  chain 1%positive [call_WithErr (Some (errors.New "row not found"));
                    call_WithErr (Some (errors.New "timeout"))]
    (mkHeap {[ 1%positive := New_literal 404 ]} ∅)
  = Some (1%positive,
          mkHeap (<[1%positive := mkProblemDetails 404 "Not Found" "row not found"
                                    "https://httpstatuses.com/404" ""
                                    (Some (errorString "timeout"))]>
                    {[ 1%positive := New_literal 404 ]}) ∅).
Proof.
  refine (eq_trans
            (WithErr_twice (mkHeap {[ 1%positive := New_literal 404 ]} ∅) 1%positive
               (New_literal 404) (errors.New "row not found") (errors.New "timeout")
               "row not found" _ _ _ _) _).
  - vm_compute. reflexivity.
  - reflexivity.
  - reflexivity.
  - discriminate.
  - vm_compute. reflexivity.
Defined.
